(** * Stat values and selected-character actions of the mods optimizer

    A shallow embedding of the [Stat] class of [src/domain/Stat.js] (the
    constructor, [plus], [getFlatValuesForCharacter], [upgradeSecondary],
    [getOptimizationValue], [serialize]) and of four profile actions on the
    selected-characters list ([moveSelectedCharacter], [unselectCharacter],
    [changeCharacterTarget], [finishEditCharacterTarget]), with the properties
    the specification states about them.

    Conventions of the embedding.
    - JavaScript strings are [string]; the string methods the code calls
      ([endsWith], [substr], [trim], [replace], [includes]) are in [JsString].
    - JavaScript numbers are modelled in [JsNumber] as exact decimal fractions
      (an integer mantissa and a number of fractional digits) together with
      [NaN]: every literal of the code and of the game data is a finite decimal
      and the operations the code applies (sum, product, division by 100,
      floor, round) stay within finite decimals.  The rounding of binary
      floating point is not modelled.
    - JavaScript objects used as dictionaries are [gmap string _]; object
      literals that are only read are association lists.
    - A method that can throw returns a [result].
    - Positions in an array are natural numbers. *)

From Stdlib Require Import ZArith QArith Qround String Ascii List Bool Lia
  Permutation.
From stdpp Require Import base strings list gmap.

Local Open Scope string_scope.
Local Open Scope list_scope.
Local Open Scope Z_scope.

(** ** Thrown errors *)

Inductive error : Type :=
| TypeError                (* a property read or a call on [undefined] *)
| Error (message : string) (* [throw new Error(message)] *).

Inductive result (A : Type) : Type :=
| Ok (a : A)
| Throw (e : error).
Arguments Ok {A} a.
Arguments Throw {A} e.

Definition bind {A B : Type} (r : result A) (k : A -> result B) : result B :=
  match r with
  | Ok a => k a
  | Throw e => Throw e
  end.

Notation "'do' x <- r ; k" := (bind r (fun x => k))
  (at level 10, x name, r at level 100, k at level 200).

(** [xs.map(f)] for a callback that can throw: elements are visited in order
    and the first exception aborts the whole call. *)
Fixpoint map_result {A B : Type} (f : A -> result B) (xs : list A)
  : result (list B) :=
  match xs with
  | [] => Ok []
  | x :: xs' => do y <- f x; do ys <- map_result f xs'; Ok (y :: ys)
  end.

(** ** String methods *)

Module JsString.

Definition chars (s : string) : list ascii := list_ascii_of_string s.
Definition of_chars (cs : list ascii) : string := string_of_list_ascii cs.

Fixpoint starts_with (p cs : list ascii) : bool :=
  match p, cs with
  | [], _ => true
  | a :: p', c :: cs' => Ascii.eqb a c && starts_with p' cs'
  | _ :: _, [] => false
  end.

(** [s.endsWith(suffix)] *)
Definition endsWith (s suffix : string) : bool :=
  starts_with (rev (chars suffix)) (rev (chars s)).

(** [s.substr(0, s.length - 1)] *)
Definition drop_last (s : string) : string :=
  of_chars (removelast (chars s)).

(** White space and line terminators within ASCII. *)
Definition is_space (c : ascii) : bool :=
  let n := nat_of_ascii c in
  ((9 <=? n) && (n <=? 13) || (n =? 32))%nat.

Fixpoint drop_spaces (cs : list ascii) : list ascii :=
  match cs with
  | c :: cs' => if is_space c then drop_spaces cs' else cs
  | [] => []
  end.

(** [s.trim()] *)
Definition trim (s : string) : string :=
  of_chars (rev (drop_spaces (rev (drop_spaces (chars s))))).

Definition plus_or_percent (c : ascii) : bool :=
  Ascii.eqb c "+" || Ascii.eqb c "%".

(** [s.replace(/[+%]/g, '')] *)
Definition replace_plus_percent (s : string) : string :=
  of_chars (List.filter (fun c => negb (plus_or_percent c)) (chars s)).

(** [s.includes('%')] *)
Definition includes_percent (s : string) : bool :=
  existsb (fun c => Ascii.eqb c "%") (chars s).

(** [xs.includes(s)] on an array of strings *)
Definition includes (xs : list string) (s : string) : bool :=
  existsb (String.eqb s) xs.

End JsString.

(** ** Numbers *)

Module JsNumber.

(** [mant * 10 ^ (- scale)] *)
Record dec : Type := mkDec { mant : Z; scale : nat }.

Inductive number : Type :=
| NaN
| Num (d : dec).

(** The representation without trailing fractional zeros. *)
Fixpoint normalize_aux (m : Z) (e : nat) : dec :=
  match e with
  | O => mkDec m O
  | S e' => if m mod 10 =? 0 then normalize_aux (m / 10) e' else mkDec m e
  end.

Definition normalize (d : dec) : dec := normalize_aux (mant d) (scale d).

Definition pow10 (e : nat) : Z := 10 ^ Z.of_nat e.

Definition of_Z (n : Z) : number := Num (mkDec n 0).

(** A decimal literal [m / 10^e] of the source, as in [3.02 = lit 302 2]. *)
Definition lit (m : Z) (e : nat) : number := Num (normalize (mkDec m e)).

Definition lift2 (f : dec -> dec -> dec) (x y : number) : number :=
  match x, y with
  | Num a, Num b => Num (f a b)
  | _, _ => NaN
  end.

Definition lift1 (f : dec -> dec) (x : number) : number :=
  match x with
  | Num a => Num (f a)
  | NaN => NaN
  end.

(** [x + y] *)
Definition add : number -> number -> number :=
  lift2 (fun a b =>
    normalize (mkDec (mant a * pow10 (scale b) + mant b * pow10 (scale a))
                     (scale a + scale b))).

(** [x * y] *)
Definition mul : number -> number -> number :=
  lift2 (fun a b => normalize (mkDec (mant a * mant b) (scale a + scale b))).

(** [x / 100], the only division of the code *)
Definition div100 : number -> number :=
  lift1 (fun a => normalize (mkDec (mant a) (scale a + 2))).

(** [Math.floor(x)] *)
Definition floor : number -> number :=
  lift1 (fun a => mkDec (mant a / pow10 (scale a)) 0).

(** [Math.round(x)]: the nearest integer, halves towards plus infinity *)
Definition round (x : number) : number := floor (add x (lit 5 1)).

(** [x % 1] seen as a condition: true when [x] has a fractional part *)
Definition has_fraction (x : number) : bool :=
  match x with
  | Num a => negb (Nat.eqb (scale (normalize a)) 0)
  | NaN => false
  end.

(** [x < y] *)
Definition ltb (x y : number) : bool :=
  match x, y with
  | Num a, Num b => mant a * pow10 (scale b) <? mant b * pow10 (scale a)
  | _, _ => false
  end.

Definition zero : number := of_Z 0.

(** *** Number to string *)

Definition digit_char (d : Z) : ascii := ascii_of_nat (48 + Z.to_nat d).

(** The [w] low decimal digits of [n], most significant first. *)
Fixpoint digits_fixed (w : nat) (n : Z) : list ascii :=
  match w with
  | O => []
  | S w' => digits_fixed w' (n / 10) ++ [digit_char (n mod 10)]
  end.

Fixpoint strip_zeros (cs : list ascii) : list ascii :=
  match cs with
  | c :: (_ :: _) as rest => if Ascii.eqb c "0" then strip_zeros rest else cs
  | _ => cs
  end.

Definition digits_of (n : Z) : list ascii :=
  strip_zeros (digits_fixed (S (Z.to_nat (Z.log2 n))) n).

Definition dec_chars (d : dec) : list ascii :=
  let a := Z.abs (mant d) in
  let p := pow10 (scale d) in
  (if mant d <? 0 then ["-"%char] else [])
    ++ digits_of (a / p)
    ++ match scale d with
       | O => []
       | S _ => "."%char :: digits_fixed (scale d) (a mod p)
       end.

(** [`${x}`]: sign, integer digits and, when there are any, a point and the
    fractional digits.  (JavaScript switches to exponent notation from 1e21
    and below 1e-6; the model never does.) *)
Definition toString (x : number) : string :=
  match x with
  | NaN => "NaN"
  | Num d => JsString.of_chars (dec_chars (normalize d))
  end.

(** *** String to number *)

Definition digit_val (c : ascii) : option Z :=
  let n := nat_of_ascii c in
  if ((48 <=? n) && (n <=? 57))%nat then Some (Z.of_nat (n - 48)) else None.

Fixpoint digits_val (acc : Z) (cs : list ascii) : option Z :=
  match cs with
  | [] => Some acc
  | c :: cs' =>
      match digit_val c with
      | Some d => digits_val (10 * acc + d) cs'
      | None => None
      end
  end.

(** The characters before the first point and, when there is a point, the
    characters after it. *)
Fixpoint split_dot (cs : list ascii) : list ascii * option (list ascii) :=
  match cs with
  | [] => ([], None)
  | c :: cs' =>
      if Ascii.eqb c "." then ([], Some cs')
      else let '(a, b) := split_dot cs' in (c :: a, b)
  end.

Definition parse_unsigned (cs : list ascii) : number :=
  let '(ip, fo) := split_dot cs in
  let fp := match fo with Some f => f | None => [] end in
  match ip ++ fp with
  | [] => NaN
  | ds =>
      match digits_val 0 ds with
      | Some m => Num (normalize (mkDec m (length fp)))
      | None => NaN
      end
  end.

Definition neg : number -> number :=
  lift1 (fun a => mkDec (- mant a) (scale a)).

(** [+s]: white space is trimmed, the empty string is 0, a signed decimal
    literal is its value and anything else is [NaN].  (Exponents, [Infinity]
    and the 0x, 0o and 0b literals of JavaScript are not modelled: they read
    as [NaN] here.) *)
Definition toNumber (s : string) : number :=
  match JsString.chars (JsString.trim s) with
  | [] => zero
  | c :: cs =>
      if Ascii.eqb c "-" then neg (parse_unsigned cs)
      else if Ascii.eqb c "+" then parse_unsigned cs
      else parse_unsigned (c :: cs)
  end.

End JsNumber.

Import JsNumber.

Import JsString.

(** ** The Stat class *)

Record Stat : Type := mkStat {
  displayModifier : string;
  type : string;
  displayType : string;
  rawValue : string;
  value : number;
  isPercent : bool;
  rolls : nat;
  displayValue : string
}.

(** A list of stat types that can be either a flat value or a percent *)
Definition mixedTypes : list string :=
  ["Health"; "Protection"; "Offense"; "Physical Damage"; "Special Damage";
   "Speed"; "Defense"; "Armor"; "Resistance"].

(** A map from the internal name to a more human-friendly name for each stat
    type *)
Definition displayNames : list (string * string) :=
  [("health", "Health"); ("protection", "Protection"); ("speed", "Speed");
   ("critDmg", "Critical Damage"); ("potency", "Potency");
   ("tenacity", "Tenacity"); ("physDmg", "Physical Damage");
   ("specDmg", "Special Damage"); ("critChance", "Critical Chance");
   ("physCritChance", "Physical Critical Chance");
   ("specCritChance", "Special Critical Chance"); ("defense", "Defense");
   ("armor", "Armor"); ("resistance", "Resistance"); ("accuracy", "Accuracy");
   ("critAvoid", "Critical Avoidance");
   ("physCritAvoid", "Physical Critical Avoidance");
   ("specCritAvoid", "Special Critical Avoidance")].

Definition secondaryUpgradeFactors : list (string * number) :=
  [("Offense %", lit 302 2); ("Defense %", lit 234 2); ("Health %", lit 186 2);
   ("Defense", lit 163 2); ("Tenacity %", lit 133 2); ("Potency %", lit 133 2);
   ("Protection %", lit 133 2); ("Health", lit 126 2);
   ("Protection", lit 111 2); ("Offense", lit 110 2);
   ("Critical Chance %", lit 104 2)].

(** [table[key]] on an object literal; [None] is [undefined].  The tables of
    this file have no repeated key. *)
Fixpoint property {A : Type} (table : list (string * A)) (key : string)
  : option A :=
  match table with
  | [] => None
  | (k, a) :: rest => if String.eqb key k then Some a else property rest key
  end.

(** [`${this.value % 1 ? Math.round(this.value * 100) / 100 : this.value}`] *)
Definition updateDisplayValue (v : number) : string :=
  toString (if has_fraction v then div100 (round (mul v (of_Z 100))) else v).

(** [new Stat(type, value, rolls)]; callers that leave [rolls] out get 1. *)
Definition new_Stat (type value : string) (rolls : nat) : Stat :=
  let displayModifier :=
    if endsWith type "%" || endsWith value "%" then "%" else "" in
  let displayType :=
    if endsWith type "%" then trim (drop_last type) else type in
  let rawValue := replace_plus_percent value in
  let v := toNumber rawValue in
  {| displayModifier := displayModifier;
     type := type;
     displayType := displayType;
     rawValue := rawValue;
     value := v;
     isPercent := String.eqb "%" displayModifier && includes mixedTypes displayType;
     rolls := rolls;
     displayValue := updateDisplayValue v |}.

(** ** Characters and profiles *)

(** Modelled from the spec: the class OptimizationPlan is not among the
    sources.  The spec gives a Target a name, a weight per stat and an optional
    stat cap beyond which additional value is not credited; the code reads a
    weight as [target[statType]]. *)
Record OptimizationPlan : Type := mkPlan {
  name : string;
  weights : gmap string number;
  caps : gmap string number
}.

(** Modelled from the spec: the class OptimizerSettings is not among the
    sources.  The spec gives a character's optimizer settings a current target,
    an ordered list of named targets, a minimum pip threshold, a slicing flag
    and a lock state; [lock] and [unlock] set the lock state. *)
Record OptimizerSettings : Type := mkSettings {
  target : OptimizationPlan;
  targets : list OptimizationPlan;
  minimumModDots : nat;
  sliceMods : bool;
  isLocked : bool
}.

Definition lock (o : OptimizerSettings) : OptimizerSettings :=
  mkSettings (target o) (targets o) (minimumModDots o) (sliceMods o) true.

Definition unlock (o : OptimizerSettings) : OptimizerSettings :=
  mkSettings (target o) (targets o) (minimumModDots o) (sliceMods o) false.

(** [baseStats] is [None] when the property is absent. *)
Record PlayerValues : Type := mkPlayerValues {
  baseStats : option (gmap string number)
}.

(** Modelled from the spec: the class Character is not among the sources.  A
    character has an identifier, base stat values and optimizer settings;
    [withOptimizerSettings] is the copy with the settings replaced. *)
Record Character : Type := mkCharacter {
  baseID : string;
  playerValues : PlayerValues;
  optimizerSettings : OptimizerSettings
}.

Definition withOptimizerSettings (c : Character) (o : OptimizerSettings)
  : Character :=
  mkCharacter (baseID c) (playerValues c) o.

(** An entry [{id, target}] of the selected-characters list. *)
Record SelectedCharacter : Type := mkSelected {
  sel_id : string;
  sel_target : OptimizationPlan
}.

Record GlobalSettings : Type := mkGlobal {
  modChangeThreshold : number;
  lockUnselectedCharacters : bool
}.

(** Modelled from the spec: the class PlayerProfile is not among the sources.
    The [with...] methods return the copy of the profile with one field
    replaced. *)
Record PlayerProfile : Type := mkProfile {
  characters : gmap string Character;
  selectedCharacters : list SelectedCharacter;
  globalSettings : GlobalSettings
}.

Definition withSelectedCharacters (p : PlayerProfile)
  (l : list SelectedCharacter) : PlayerProfile :=
  mkProfile (characters p) l (globalSettings p).

Definition withCharacters (p : PlayerProfile) (cs : gmap string Character)
  : PlayerProfile :=
  mkProfile cs (selectedCharacters p) (globalSettings p).

(** A number read from an object and used in arithmetic: [undefined] becomes
    [NaN]. *)
Definition number_at (o : gmap string number) (key : string) : number :=
  match o !! key with
  | Some x => x
  | None => NaN
  end.

(** [character.optimizerSettings.target[statType]] *)
Definition target_weight (character : Character) (statType : string) : number :=
  number_at (weights (target (optimizerSettings character))) statType.

(** [character.playerValues.baseStats[statType]]: reading a property of an
    absent [baseStats] throws. *)
Definition base_stat (character : Character) (statType : string)
  : result number :=
  match baseStats (playerValues character) with
  | Some base => Ok (number_at base statType)
  | None => Throw TypeError
  end.

(** ** Methods of Stat *)

(** The argument of [plus]: a Stat or any other value. *)
Inductive js_value : Type :=
| IsStat (s : Stat)
| NotStat.

(** [xs.reduce((a, b) => a + b, 0)] *)
Definition sum (xs : list number) : number := fold_left add xs zero.

Section StatMethods.

(** The table [constants/statTypeMap], from a display type to the property
    names it stands for; the module is not among the sources. *)
Variable statTypeMap : string -> option (list string).

Definition plus (this : Stat) (that : js_value) : result Stat :=
  match that with
  | NotStat => Throw (Error "Can't add a non-Stat to a Stat")
  | IsStat that =>
      if negb (String.eqb (displayType that) (displayType this))
         || negb (Bool.eqb (isPercent that) (isPercent this))
      then Throw (Error "Can't add two Stats of different types")
      else
        let valueSum := add (value this) (value that) in
        Ok (new_Stat (type this) (toString valueSum +:+ displayModifier this) 1)
  end.

Definition getFlatValuesForCharacter (this : Stat) (character : Character)
  : result (list Stat) :=
  match statTypeMap (displayType this) with
  | None => Throw TypeError
  | Some statPropertyNames =>
      map_result (fun statName =>
        let displayName :=
          match property displayNames statName with
          | Some n => n
          | None => "undefined"
          end in
        let statType :=
          if includes mixedTypes displayName then displayName
          else displayName +:+ " %" in
        match isPercent this, baseStats (playerValues character) with
        | true, Some base =>
            Ok (new_Stat statType
                  (toString (div100 (mul (value this) (number_at base statName))))
                  1)
        | false, _ => Ok (new_Stat statType (rawValue this) 1)
        | true, None =>
            Throw (Error ("Stat is given as a percentage, but "
                            +:+ baseID character +:+ " has no base stats"))
        end) statPropertyNames
  end.

Definition upgradeSecondary (this : Stat) : Stat :=
  match property secondaryUpgradeFactors (type this) with
  | Some factor => new_Stat (type this) (toString (mul factor (value this))) 1
  | None =>
      if String.eqb "Speed" (type this)
      then new_Stat (type this) (toString (add (value this) (of_Z 1))) 1
      else this
  end.

Definition getOptimizationValue (this : Stat) (character : Character)
  : result number :=
  if String.eqb (displayType this) "Special Critical Chance" then Ok zero
  else
    do statTypes <-
      (if String.eqb "Physical Critical Chance" (displayType this)
       then Ok ["critChance"]
       else match statTypeMap (displayType this) with
            | Some names => Ok names
            | None => Throw TypeError
            end);
    if isPercent this then
      do terms <-
        map_result (fun statType =>
          do base <- base_stat character statType;
          Ok (mul (target_weight character statType)
                  (floor (div100 (mul base (value this)))))) statTypes;
      Ok (sum terms)
    else
      Ok (sum (map (fun statType =>
                 mul (target_weight character statType) (value this))
                 statTypes)).

Definition serialize (this : Stat) : string * string * nat :=
  let percent :=
    if (isPercent this || negb (includes mixedTypes (displayType this)))
       && negb (includes_percent (type this))
    then "%" else "" in
  (type this, "+" +:+ rawValue this +:+ percent, rolls this).

End StatMethods.

(** ** Actions on the selected-characters list *)

(** [xs.splice(start, deleteCount, ...items)] at a position [start] counted
    from the front: the removed elements and the array afterwards.  A [start]
    past the end is the end. *)
Definition splice {A : Type} (xs : list A) (start deleteCount : nat)
  (items : list A) : list A * list A :=
  (take deleteCount (drop start xs),
   take start xs ++ items ++ drop (start + deleteCount) xs).

Section Actions.

(** Modelled from the spec: [OptimizerSettings.withTarget] is not among the
    sources and the spec does not describe it further; it is a parameter. *)
Variable withTarget : OptimizerSettings -> OptimizationPlan -> OptimizerSettings.

(** Each action is the function it hands to [updateProfile]; indices are
    positions in the list.

    [moveSelectedCharacter]: when [fromIndex] is past the end, [splice]
    removes nothing and the source goes on to insert [undefined], which a
    list of entries cannot hold: the model answers [None] there. *)
Definition moveSelectedCharacter (fromIndex : nat) (toIndex : option nat)
  (profile : PlayerProfile) : option PlayerProfile :=
  if decide (Some fromIndex = toIndex) then Some profile
  else
    let newSelectedCharacters := selectedCharacters profile in
    let '(removed, newSelectedCharacters) :=
      splice newSelectedCharacters fromIndex 1 [] in
    match removed with
    | [] => None
    | oldValue :: _ =>
        match toIndex with
        | None =>
            Some (withSelectedCharacters profile
                    ([oldValue] ++ newSelectedCharacters))
        | Some toIndex =>
            if (fromIndex <? toIndex)%nat then
              Some (withSelectedCharacters profile
                      (snd (splice newSelectedCharacters toIndex 0 [oldValue])))
            else
              Some (withSelectedCharacters profile
                      (snd (splice newSelectedCharacters (toIndex + 1) 0
                              [oldValue])))
        end
    end.

Definition unselectCharacter (characterIndex : nat) (profile : PlayerProfile)
  : result PlayerProfile :=
  let newSelectedCharacters := selectedCharacters profile in
  if (characterIndex <? length newSelectedCharacters)%nat then
    let '(removed, newSelectedCharacters) :=
      splice newSelectedCharacters characterIndex 1 [] in
    match removed with
    | [] => Throw TypeError
    | oldValue :: _ =>
        match characters profile !! sel_id oldValue with
        | None => Throw TypeError
        | Some oldCharacter =>
            Ok (withCharacters
                  (withSelectedCharacters profile newSelectedCharacters)
                  (<[sel_id oldValue :=
                       withOptimizerSettings oldCharacter
                         (unlock (optimizerSettings oldCharacter))]>
                     (characters profile)))
        end
    end
  else Ok profile.

(** Under the guard [splice] always removes one entry; the empty case of
    the match is never taken. *)
Definition changeCharacterTarget (characterIndex : nat)
  (target : OptimizationPlan) (profile : PlayerProfile) : PlayerProfile :=
  let newSelectedCharacters := selectedCharacters profile in
  if (length newSelectedCharacters <=? characterIndex)%nat then profile
  else
    let '(removed, newSelectedCharacters) :=
      splice newSelectedCharacters characterIndex 1 [] in
    match removed with
    | [] => profile
    | oldValue :: _ =>
        let newValue := mkSelected (sel_id oldValue) target in
        withSelectedCharacters profile
          (snd (splice newSelectedCharacters characterIndex 0 [newValue]))
    end.

Definition finishEditCharacterTarget (characterIndex : nat)
  (newTarget : OptimizationPlan) (profile : PlayerProfile)
  : result PlayerProfile :=
  if (length (selectedCharacters profile) <=? characterIndex)%nat
  then Ok profile
  else
    let newSelectedCharacters := selectedCharacters profile in
    let '(removed, newSelectedCharacters) :=
      splice newSelectedCharacters characterIndex 1 [] in
    match removed with
    | [] => Throw TypeError
    | oldValue :: _ =>
        let characterID := sel_id oldValue in
        let newSelectedCharacters :=
          snd (splice newSelectedCharacters characterIndex 0
                 [mkSelected characterID newTarget]) in
        match characters profile !! characterID with
        | None => Throw TypeError
        | Some oldCharacter =>
            let newCharacter :=
              withOptimizerSettings oldCharacter
                (withTarget (optimizerSettings oldCharacter) newTarget) in
            Ok (withSelectedCharacters
                  (withCharacters profile
                     (<[baseID newCharacter := newCharacter]>
                        (characters profile)))
                  newSelectedCharacters)
        end
    end.

End Actions.


(** ** Auxiliary notions used in the statements *)

(** Characters that [trim] and [replace(/[+%]/g, '')] leave alone. *)
Definition plain (c : ascii) : bool :=
  negb (is_space c) && negb (plus_or_percent c).

Definition is_digit (c : ascii) : bool :=
  match digit_val c with
  | Some _ => true
  | None => false
  end.

(** A number as the operations and [toNumber] produce it: without trailing
    fractional zeros. *)
Definition canon (x : number) : number := lift1 normalize x.

(** The rational value of [Num a] is [mant a / 10 ^ scale a]; two decimals
    denote the same value when their cross products agree. *)
Definition same_value (a b : dec) : Prop :=
  mant a * pow10 (scale b) = mant b * pow10 (scale a).

(** The rational number a decimal stands for. *)
Definition to_Q (d : dec) : Q := Qmake (mant d) (Z.to_pos (pow10 (scale d))).

(** ** The statements of the specification, as it words them *)

(** The weighted sum over stat types of weight times contribution. *)
Definition weighted_sum (statTypes : list string)
  (weight contribution : string -> number) : number :=
  sum (map (fun statType => mul (weight statType) (contribution statType))
         statTypes).

(** The flat contribution of a stat for a stat type: the value of a flat stat,
    and for a percent stat that percentage of the character's base stat. *)
Definition effective_contribution (s : Stat) (base : gmap string number)
  (statType : string) : number :=
  if isPercent s then div100 (mul (value s) (number_at base statType))
  else value s.









(** ** Concrete data for the examples *)

(** Modelled from the spec: the module [constants/statTypeMap] is not among
    the sources and the spec does not list it.  These entries, used only in
    concrete evaluations, send a display name to the property name that
    [displayNames] sends back to it. *)
Definition sampleStatTypeMap (displayType : string) : option (list string) :=
  property
    [("Health", ["health"]); ("Protection", ["protection"]);
     ("Speed", ["speed"]);
     ("Physical Critical Chance", ["physCritChance"]);
     ("Special Critical Chance", ["specCritChance"])]
    displayType.

Definition samplePlan (ws ks : list (string * number)) : OptimizationPlan :=
  mkPlan "sample" (list_to_map ws) (list_to_map ks).

Definition sampleCharacter (baseID : string)
  (base : option (list (string * number))) (plan : OptimizationPlan)
  : Character :=
  mkCharacter baseID
    (mkPlayerValues (option_map list_to_map base))
    (mkSettings plan [plan] 1 false true).

Definition sampleProfile (cs : list Character) (sel : list SelectedCharacter)
  : PlayerProfile :=
  mkProfile (list_to_map (map (fun c => (baseID c, c)) cs)) sel
    (mkGlobal (of_Z 0) false).

(** A target weighing health, speed and critical chance, with a cap on
    speed; a character with base stats and one without; a profile with three
    selected entries. *)
Definition heroPlan : OptimizationPlan :=
  samplePlan [("health", of_Z 3); ("speed", of_Z 1); ("critChance", of_Z 2)]
             [("speed", of_Z 10)].

Definition heroBase : list (string * number) :=
  [("health", of_Z 150); ("speed", of_Z 100)].

Definition hero : Character := sampleCharacter "HERO" (Some heroBase) heroPlan.

Definition novice : Character := sampleCharacter "NOVICE" None heroPlan.

Definition heroProfile : PlayerProfile :=
  sampleProfile [hero; novice]
    [mkSelected "HERO" heroPlan; mkSelected "NOVICE" heroPlan;
     mkSelected "HERO" (samplePlan [] [])].


(** * The rest of the Stat class *)

(** [x - y] *)
Definition sub : number -> number -> number :=
  lift2 (fun a b =>
    normalize (mkDec (mant a * pow10 (scale b) - mant b * pow10 (scale a))
                     (scale a + scale b))).

(** The integer nearest to [|d| * 100], the larger one of two. *)
Definition nearest_hundredth (d : dec) : Z :=
  (200 * Z.abs (mant d) + pow10 (scale d)) / (2 * pow10 (scale d)).

(** [x.toFixed(2)]: the sign, then the nearest number of hundredths printed
    with exactly two fractional digits. *)
Definition toFixed2 (x : number) : string :=
  match x with
  | NaN => "NaN"
  | Num d =>
      let n := nearest_hundredth d in
      of_chars ((if mant d <? 0 then ["-"%char] else [])
                  ++ digits_of (n / 100)
                  ++ "."%char :: digits_fixed 2 (n mod 100))
  end.


(** Map pips to maximum value at level 15 for each primary stat type *)
Definition maxPrimaries : list (string * list (nat * string)) :=
  [("Offense", [(1, "1.88%"); (2, "2%"); (3, "3.88%"); (4, "4%");
                (5, "5.88%"); (6, "8.50%")]%nat);
   ("Defense", [(1, "3.75%"); (2, "4%"); (3, "7.75%"); (4, "8%");
                (5, "11.75%"); (6, "20%")]%nat);
   ("Health", [(1, "1.88%"); (2, "2%"); (3, "3.88%"); (4, "4%");
               (5, "5.88%"); (6, "16%")]%nat);
   ("Protection", [(1, "7.5%"); (2, "8%"); (3, "15.5%"); (4, "16%");
                   (5, "23.5%"); (6, "24%")]%nat);
   ("Speed", [(1, "17"); (2, "19"); (3, "21"); (4, "26"); (5, "30");
              (6, "32")]%nat);
   ("Accuracy", [(1, "7.5%"); (2, "8%"); (3, "8.75%"); (4, "10.5%");
                 (5, "12%"); (6, "30%")]%nat);
   ("Critical Avoidance", [(1, "15%"); (2, "16%"); (3, "18%"); (4, "21%");
                           (5, "24%"); (6, "35%")]%nat);
   ("Critical Chance", [(1, "7.50%"); (2, "8%"); (3, "8.75%"); (4, "10.5%");
                        (5, "12%"); (6, "20%")]%nat);
   ("Critical Damage", [(1, "22.50%"); (2, "24%"); (3, "27%"); (4, "31.5%");
                        (5, "36%"); (6, "42%")]%nat);
   ("Potency", [(1, "15%"); (2, "16%"); (3, "18%"); (4, "21%"); (5, "24%");
                (6, "30%")]%nat);
   ("Tenacity", [(1, "15%"); (2, "16%"); (3, "18%"); (4, "21%"); (5, "24%");
                 (6, "35%")]%nat)].

(** [table[pips]] on an object literal with the keys 1 to 6. *)
Fixpoint at_pips {A : Type} (table : list (nat * A)) (pips : nat) : option A :=
  match table with
  | [] => None
  | (k, a) :: rest => if Nat.eqb pips k then Some a else at_pips rest pips
  end.

Section MoreStatMethods.

(** The enumeration [modStats] of [constants/enums], from the stat name of a
    swgoh.help response to a stat type; the module is not among the
    sources. *)
Variable modStats : string -> option string.

Definition getClass (this : Stat) : string :=
  match rolls this with
  | 5%nat => "S"
  | 4%nat => "A"
  | 3%nat => "B"
  | 2%nat => "C"
  | _ => "D"
  end.

Definition showValue (this : Stat) : string :=
  displayValue this +:+ displayModifier this.

Definition show (this : Stat) : string :=
  showValue this +:+ " " +:+ displayType this.

Definition minus (this : Stat) (that : js_value) : result Stat :=
  match that with
  | NotStat =>
      Throw (Error "Can't take the difference between a Stat and a non-Stat")
  | IsStat that =>
      if negb (String.eqb (type that) (type this))
      then Throw (Error "Can't take the difference between Stats of different types")
      else
        let valueDiff := sub (value this) (value that) in
        let valueDiff :=
          if has_fraction valueDiff then toFixed2 valueDiff
          else toString valueDiff in
        Ok (new_Stat (type this) (valueDiff +:+ displayModifier this) 1)
  end.

(** [Stat.maxPrimaries[this.displayType][modPips]] is [undefined] for pips
    outside 1 to 6, and the constructor throws on it. *)
Definition upgradePrimary (this : Stat) (modPips : nat) : result Stat :=
  match property maxPrimaries (displayType this) with
  | Some byPips =>
      match at_pips byPips modPips with
      | Some v => Ok (new_Stat (type this) v 1)
      | None => Throw TypeError
      end
  | None => Ok this
  end.

(** A stat of a swgoh.help response: [{unitStat, value, roll}]. *)
Record StatJson : Type := mkStatJson {
  unitStat : string;
  json_value : number;
  roll : nat
}.

Definition fromSwgohHelp (statJson : StatJson) : result Stat :=
  match modStats (unitStat statJson) with
  | Some ty => Ok (new_Stat ty (toString (json_value statJson)) (roll statJson))
  | None => Throw TypeError
  end.

End MoreStatMethods.


(** A number with at most two fractional digits. *)
Definition two_decimals (x : number) : Prop :=
  match x with
  | NaN => True
  | Num d => (scale (normalize d) <= 2)%nat
  end.

(** * The rest of the character actions *)

(** [lookup(k)] or a TypeError, for a method call on [table[k]]. *)
Definition defined {A : Type} (o : option A) : result A :=
  match o with
  | Some a => Ok a
  | None => Throw TypeError
  end.

(** [xs.find(p)] *)
Fixpoint find_first {A : Type} (p : A -> bool) (xs : list A) : option A :=
  match xs with
  | [] => None
  | x :: rest => if p x then Some x else find_first p rest
  end.

Section MoreActions.

(** [utils/mapObject] and [utils/groupByKey] are not among the sources; they
    are parameters, and the properties that depend on what they return say
    so in a hypothesis. *)
Variable mapObject :
  gmap string Character -> (Character -> Character) -> gmap string Character.
Variable groupByKey :
  list SelectedCharacter -> (SelectedCharacter -> string)
  -> gmap string SelectedCharacter.

(** Methods of Character and the constructor of OptimizationPlan that are
    not among the sources. *)
Variable withResetTargets : Character -> Character.
Variable withResetTarget : Character -> string -> Character.
Variable withDeletedTarget : Character -> string -> Character.
Variable character_targets : Character -> list OptimizationPlan.
Variable new_OptimizationPlan : string -> OptimizationPlan.

(** [Object.keys(o)] *)
Definition keys {A : Type} (o : gmap string A) : list string :=
  map fst (map_to_list o).

Definition selectCharacter (characterID : string) (target : OptimizationPlan)
  (prevIndex : option nat) (profile : PlayerProfile) : PlayerProfile :=
  let selectedCharacter := mkSelected characterID target in
  let oldSelectedCharacters := selectedCharacters profile in
  match prevIndex with
  | None =>
      withSelectedCharacters profile
        ([selectedCharacter] ++ oldSelectedCharacters)
  | Some prevIndex =>
      let newSelectedCharacters :=
        snd (splice oldSelectedCharacters (prevIndex + 1) 0
               [selectedCharacter]) in
      withSelectedCharacters profile newSelectedCharacters
  end.

Definition unselectAllCharacters (profile : PlayerProfile) : PlayerProfile :=
  withSelectedCharacters
    (withCharacters profile
       (mapObject (characters profile)
          (fun character =>
             withOptimizerSettings character
               (unlock (optimizerSettings character)))))
    [].

Definition lockSelectedCharacters (profile : PlayerProfile) : PlayerProfile :=
  let selectedCharacterIDs :=
    keys (groupByKey (selectedCharacters profile) sel_id) in
  withCharacters profile
    (mapObject (characters profile)
       (fun character =>
          if includes selectedCharacterIDs (baseID character)
          then withOptimizerSettings character
                 (lock (optimizerSettings character))
          else character)).

Definition unlockSelectedCharacters (profile : PlayerProfile) : PlayerProfile :=
  let selectedCharacterIDs :=
    keys (groupByKey (selectedCharacters profile) sel_id) in
  withCharacters profile
    (mapObject (characters profile)
       (fun character =>
          if includes selectedCharacterIDs (baseID character)
          then withOptimizerSettings character
                 (unlock (optimizerSettings character))
          else character)).

Definition lockCharacter (characterID : string) (profile : PlayerProfile)
  : result PlayerProfile :=
  do oldCharacter <- defined (characters profile !! characterID);
  let newCharacters :=
    <[characterID := withOptimizerSettings oldCharacter
                       (lock (optimizerSettings oldCharacter))]>
      (characters profile) in
  Ok (withCharacters profile newCharacters).

Definition unlockCharacter (characterID : string) (profile : PlayerProfile)
  : result PlayerProfile :=
  do oldCharacter <- defined (characters profile !! characterID);
  let newCharacters :=
    <[characterID := withOptimizerSettings oldCharacter
                       (unlock (optimizerSettings oldCharacter))]>
      (characters profile) in
  Ok (withCharacters profile newCharacters).

Definition resetCharacterTargetToDefault (characterID targetName : string)
  (profile : PlayerProfile) : result PlayerProfile :=
  do oldCharacter <- defined (characters profile !! characterID);
  let newCharacter := withResetTarget oldCharacter targetName in
  let resetTarget :=
    match find_first (fun target => String.eqb (name target) targetName)
            (targets (optimizerSettings newCharacter)) with
    | Some target => target
    | None => new_OptimizationPlan "unnamed"
    end in
  let newSelectedCharacters :=
    map (fun entry =>
           if String.eqb (sel_id entry) characterID
              && String.eqb (name (sel_target entry)) targetName
           then mkSelected (sel_id entry) resetTarget
           else mkSelected (sel_id entry) (sel_target entry))
      (selectedCharacters profile) in
  Ok (withSelectedCharacters
        (withCharacters profile
           (<[characterID := newCharacter]> (characters profile)))
        newSelectedCharacters).

Definition resetAllCharacterTargets (profile : PlayerProfile)
  : result PlayerProfile :=
  let newCharacters := mapObject (characters profile) withResetTargets in
  do newSelectedCharacters <-
    map_result (fun entry =>
      do character <- defined (newCharacters !! sel_id entry);
      let resetTarget :=
        find_first (fun target =>
                      String.eqb (name target) (name (sel_target entry)))
          (targets (optimizerSettings character)) in
      match resetTarget with
      | Some target => Ok (mkSelected (sel_id entry) target)
      | None => Ok (mkSelected (sel_id entry) (sel_target entry))
      end) (selectedCharacters profile);
  Ok (withSelectedCharacters (withCharacters profile newCharacters)
        newSelectedCharacters).

Definition deleteTarget (characterID targetName : string)
  (profile : PlayerProfile) : result PlayerProfile :=
  do oldCharacter <- defined (characters profile !! characterID);
  let newCharacters :=
    <[characterID := withDeletedTarget oldCharacter targetName]>
      (characters profile) in
  do newSelectedCharacters <-
    map_result (fun entry =>
      if String.eqb (sel_id entry) characterID
         && String.eqb (name (sel_target entry)) targetName
      then
        do character <- defined (newCharacters !! characterID);
        let newTarget :=
          match character_targets character with
          | first :: _ => first
          | [] => new_OptimizationPlan "unnamed"
          end in
        Ok (mkSelected (sel_id entry) newTarget)
      else Ok (mkSelected (sel_id entry) (sel_target entry)))
      (selectedCharacters profile);
  Ok (withSelectedCharacters (withCharacters profile newCharacters)
        newSelectedCharacters).

End MoreActions.


(** ** Loading the stored profiles (state/actions/storage.js)

    The database hands the stored profiles to the success callback of
    [loadProfiles], which dispatches two actions.  The callback is modelled
    as the list of actions it dispatches, in order.  The ally code argument
    is a string or undefined ([None]); a profile is any record with an ally
    code and a player name. *)

Section Storage.

Variable Profile : Type.
Variable allyCode : Profile -> string.
Variable playerName : Profile -> string.

Inductive action : Type :=
| setProfile (profile : option Profile)
| setPlayerProfiles (profiles : gmap string string).

(** Truthiness of a string or undefined. *)
Definition truthy (s : option string) : bool :=
  match s with
  | Some s => negb (String.eqb s "")
  | None => false
  end.

(** [Array.prototype.find] with a callback that reads the index. *)
Fixpoint find_from {A : Type} (f : A -> nat -> bool) (index : nat)
  (xs : list A) : option A :=
  match xs with
  | [] => None
  | x :: rest => if f x index then Some x else find_from f (S index) rest
  end.

Definition loadProfiles_loaded (code : option string)
  (profiles : list Profile) : list action :=
  let profile :=
    if truthy code
    then find_from (fun profile _ =>
                      match code with
                      | Some code => String.eqb (allyCode profile) code
                      | None => false
                      end) 0 profiles
    else find_from (fun _ index => Nat.eqb index 0) 0 profiles in
  let playerProfiles :=
    fold_left (fun playerProfiles profile =>
                 <[allyCode profile := playerName profile]> playerProfiles)
      profiles ∅ in
  [setProfile profile; setPlayerProfiles playerProfiles].

End Storage.

Arguments setProfile {Profile} profile.
Arguments setPlayerProfiles {Profile} profiles.

(** ** Sample helpers

    Instances of the helpers that are not among the sources, for concrete
    evaluations: [mapObject] applies the function to every value,
    [groupByKey] keys the entries by the key function, [modStats] knows two
    stat names, a character without changes stands for its reset and deleted
    forms, [targets()] reads the targets of the settings, and a new plan has
    no weights. *)
Definition sampleMapObject (m : gmap string Character)
  (f : Character -> Character) : gmap string Character :=
  f <$> m.

Definition sampleGroupByKey (l : list SelectedCharacter)
  (f : SelectedCharacter -> string) : gmap string SelectedCharacter :=
  list_to_map (map (fun x => (f x, x)) l).

Definition sampleModStats (unitStat : string) : option string :=
  property [("UNITSTATSPEED", "Speed");
            ("UNITSTATOFFENSEPERCENTADDITIVE", "Offense %")] unitStat.

Definition sampleTargets (c : Character) : list OptimizationPlan :=
  targets (optimizerSettings c).

Definition sampleNewPlan (n : string) : OptimizationPlan := mkPlan n ∅ ∅.

Definition sampleStored : list (string * string) :=
  [("111", "Ann"); ("222", "Bob"); ("222", "Cy")].
(** * Properties *)

(** ** Strings *)

Section StringFacts.

Lemma chars_of_chars (cs : list ascii) : chars (of_chars cs) = cs.
Proof. apply list_ascii_of_string_of_list_ascii. Qed.

Lemma of_chars_chars (s : string) : of_chars (chars s) = s.
Proof. apply string_of_list_ascii_of_string. Qed.

Lemma chars_append (a b : string) : chars (a +:+ b) = chars a ++ chars b.
Proof.
  unfold chars. induction a as [|c a IH]; simpl; [reflexivity|].
  now rewrite IH.
Qed.

Lemma of_chars_app (a b : list ascii) :
  of_chars (a ++ b) = of_chars a +:+ of_chars b.
Proof.
  rewrite <- (of_chars_chars (of_chars a +:+ of_chars b)).
  now rewrite chars_append, !chars_of_chars.
Qed.

Lemma replace_append (a b : string) :
  replace_plus_percent (a +:+ b)
  = replace_plus_percent a +:+ replace_plus_percent b.
Proof.
  unfold replace_plus_percent.
  now rewrite chars_append, List.filter_app, of_chars_app.
Qed.

Lemma filter_all {A : Type} (f : A -> bool) (l : list A) :
  Forall (fun x => f x = true) l -> List.filter f l = l.
Proof.
  induction 1 as [|x l Hx _ IH]; simpl; [reflexivity|].
  now rewrite Hx, IH.
Qed.

Lemma replace_idempotent (s : string) :
  replace_plus_percent (replace_plus_percent s) = replace_plus_percent s.
Proof.
  unfold replace_plus_percent. rewrite chars_of_chars. f_equal.
  apply filter_all, List.Forall_forall.
  intros c Hc. now apply List.filter_In in Hc.
Qed.

Lemma replace_plain (s : string) :
  Forall (fun c => plain c = true) (chars s) -> replace_plus_percent s = s.
Proof.
  intros H. unfold replace_plus_percent.
  rewrite filter_all; [apply of_chars_chars|].
  eapply List.Forall_impl; [|exact H].
  intros c Hc. unfold plain in Hc.
  now apply andb_true_iff in Hc.
Qed.

Lemma drop_spaces_plain (cs : list ascii) :
  Forall (fun c => plain c = true) cs -> drop_spaces cs = cs.
Proof.
  destruct 1 as [|c cs Hc _]; simpl; [reflexivity|].
  unfold plain in Hc. apply andb_true_iff in Hc as [Hc _].
  now destruct (is_space c).
Qed.

Lemma trim_plain (s : string) :
  Forall (fun c => plain c = true) (chars s) -> trim s = s.
Proof.
  intros H. unfold trim.
  rewrite (drop_spaces_plain _ H).
  rewrite drop_spaces_plain, rev_involutive; [apply of_chars_chars|].
  now apply List.Forall_rev.
Qed.

(** A string that ends with a character contains it. *)
Lemma endsWith_char_In (s : string) (c : ascii) :
  endsWith s (String c EmptyString) = true -> In c (chars s).
Proof.
  unfold endsWith. simpl. intros H. apply in_rev.
  destruct (rev (chars s)) as [|a l]; [discriminate|].
  apply andb_true_iff in H as [H _].
  apply Ascii.eqb_eq in H. subst a. now left.
Qed.

Lemma endsWith_percent_replace (s : string) :
  endsWith (replace_plus_percent s) "%" = false.
Proof.
  destruct (endsWith (replace_plus_percent s) "%") eqn:E; [|reflexivity].
  apply endsWith_char_In in E.
  unfold replace_plus_percent in E. rewrite chars_of_chars in E.
  apply List.filter_In in E as [_ E]. discriminate.
Qed.

Lemma endsWith_percent_plain (s : string) :
  Forall (fun c => plain c = true) (chars s) -> endsWith s "%" = false.
Proof.
  intros H. rewrite <- (replace_plain s H). apply endsWith_percent_replace.
Qed.

End StringFacts.

(** ** Numbers *)

Section NumberFacts.

Lemma pow10_pos (e : nat) : 0 < pow10 e.
Proof. unfold pow10. apply Z.pow_pos_nonneg; lia. Qed.

Lemma pow10_0 : pow10 0 = 1.
Proof. reflexivity. Qed.

Lemma pow10_S (e : nat) : pow10 (S e) = 10 * pow10 e.
Proof. unfold pow10. rewrite Nat2Z.inj_succ, Z.pow_succ_r; lia. Qed.

Lemma pow10_add (a b : nat) : pow10 (a + b) = pow10 a * pow10 b.
Proof. unfold pow10. rewrite Nat2Z.inj_add, Z.pow_add_r; lia. Qed.

(** *** Normal forms *)

Lemma normalize_aux_idempotent (e : nat) : forall m,
  normalize (normalize_aux m e) = normalize_aux m e.
Proof.
  induction e as [|e IH]; intros m; simpl; [reflexivity|].
  destruct (m mod 10 =? 0) eqn:E; [apply IH|].
  unfold normalize. simpl. now rewrite E.
Qed.

Lemma normalize_idempotent (d : dec) : normalize (normalize d) = normalize d.
Proof. apply normalize_aux_idempotent. Qed.

Lemma canon_idempotent (x : number) : canon (canon x) = canon x.
Proof. destruct x; simpl; [reflexivity|]. now rewrite normalize_idempotent. Qed.

Lemma normalize_aux_same_value (e : nat) : forall m,
  same_value (normalize_aux m e) (mkDec m e).
Proof.
  unfold same_value.
  induction e as [|e IH]; intros m; simpl; [reflexivity|].
  destruct (m mod 10 =? 0) eqn:E; [|reflexivity].
  apply Z.eqb_eq in E. specialize (IH (m / 10)). simpl in IH.
  rewrite pow10_S.
  assert (Hm : m = 10 * (m / 10)) by (pose proof (Z.div_mod m 10); lia).
  rewrite Hm at 2. lia.
Qed.

Lemma normalize_same_value (d : dec) : same_value (normalize d) d.
Proof. destruct d as [m e]. apply normalize_aux_same_value. Qed.

Lemma normalize_aux_opp (e : nat) : forall m,
  normalize_aux (- m) e
  = mkDec (- mant (normalize_aux m e)) (scale (normalize_aux m e)).
Proof.
  induction e as [|e IH]; intros m; simpl; [reflexivity|].
  destruct (m mod 10 =? 0) eqn:E.
  - apply Z.eqb_eq in E.
    assert (E' : (- m) mod 10 = 0) by (apply Z.mod_opp_l_z; lia).
    rewrite E'. simpl.
    rewrite Z.div_opp_l_z by lia. apply IH.
  - apply Z.eqb_neq in E.
    destruct ((- m) mod 10 =? 0) eqn:E'; [|reflexivity].
    apply Z.eqb_eq in E'. exfalso. apply E.
    replace m with (- - m) by lia. apply Z.mod_opp_l_z; lia.
Qed.


(** *** Digits *)

Lemma digit_val_char (d : Z) :
  0 <= d < 10 -> digit_val (digit_char d) = Some d.
Proof.
  intros H.
  assert (C : d = 0 \/ d = 1 \/ d = 2 \/ d = 3 \/ d = 4 \/ d = 5 \/ d = 6
              \/ d = 7 \/ d = 8 \/ d = 9) by lia.
  repeat (destruct C as [-> | C]; [reflexivity|]). now subst.
Qed.

Lemma is_digit_char (d : Z) : 0 <= d < 10 -> is_digit (digit_char d) = true.
Proof. intros H. unfold is_digit. now rewrite digit_val_char. Qed.

Lemma digits_val_app (a b : list ascii) : forall acc,
  digits_val acc (a ++ b)
  = match digits_val acc a with
    | Some x => digits_val x b
    | None => None
    end.
Proof.
  induction a as [|c a IH]; intros acc; simpl; [reflexivity|].
  destruct (digit_val c); [apply IH | reflexivity].
Qed.

Lemma digits_val_fixed (w : nat) : forall n acc,
  digits_val acc (digits_fixed w n) = Some (acc * pow10 w + n mod pow10 w).
Proof.
  induction w as [|w IH]; intros n acc.
  - simpl. f_equal. unfold pow10. simpl. rewrite Z.mod_1_r. lia.
  - cbn [digits_fixed]. rewrite digits_val_app, IH. cbn [digits_val].
    rewrite digit_val_char by (apply Z.mod_pos_bound; lia).
    f_equal. rewrite pow10_S.
    rewrite (Z.rem_mul_r n 10 (pow10 w)) by (pose proof (pow10_pos w); lia).
    lia.
Qed.

Lemma digits_fixed_digits (w : nat) : forall n,
  Forall (fun c => is_digit c = true) (digits_fixed w n).
Proof.
  induction w as [|w IH]; intros n; simpl; [constructor|].
  apply Forall_app; split; [apply IH|].
  repeat constructor. apply is_digit_char, Z.mod_pos_bound. lia.
Qed.

Lemma digits_fixed_length (w : nat) : forall n,
  length (digits_fixed w n) = w.
Proof.
  induction w as [|w IH]; intros n; simpl; [reflexivity|].
  rewrite length_app, IH. simpl. lia.
Qed.

Lemma strip_zeros_val (cs : list ascii) :
  digits_val 0 (strip_zeros cs) = digits_val 0 cs.
Proof.
  induction cs as [|c cs IH]; [reflexivity|].
  destruct cs as [|c' cs]; [reflexivity|].
  change (strip_zeros (c :: c' :: cs))
    with (if Ascii.eqb c "0" then strip_zeros (c' :: cs) else c :: c' :: cs).
  destruct (Ascii.eqb c "0") eqn:E; [|reflexivity].
  apply Ascii.eqb_eq in E. subst c. rewrite IH. reflexivity.
Qed.

Lemma strip_zeros_digits (cs : list ascii) :
  Forall (fun c => is_digit c = true) cs ->
  Forall (fun c => is_digit c = true) (strip_zeros cs).
Proof.
  induction 1 as [|c cs Hc H IH]; [constructor|].
  destruct cs as [|c' cs]; [now repeat constructor|].
  change (strip_zeros (c :: c' :: cs))
    with (if Ascii.eqb c "0" then strip_zeros (c' :: cs) else c :: c' :: cs).
  destruct (Ascii.eqb c "0"); [exact IH | now constructor].
Qed.

Lemma strip_zeros_nonempty (cs : list ascii) :
  cs <> [] -> strip_zeros cs <> [].
Proof.
  induction cs as [|c cs IH]; [easy|]. intros _.
  destruct cs as [|c' cs]; [easy|].
  change (strip_zeros (c :: c' :: cs))
    with (if Ascii.eqb c "0" then strip_zeros (c' :: cs) else c :: c' :: cs).
  destruct (Ascii.eqb c "0"); [now apply IH | easy].
Qed.

Lemma below_pow10_log2 (n : Z) :
  0 <= n -> n < pow10 (S (Z.to_nat (Z.log2 n))).
Proof.
  intros Hn. unfold pow10.
  pose proof (Z.log2_nonneg n) as Hl.
  rewrite Nat2Z.inj_succ, Z2Nat.id by lia.
  destruct (Z.eq_dec n 0) as [->|Hz]; [reflexivity|].
  pose proof (Z.log2_spec n ltac:(lia)) as [_ Hlt].
  eapply Z.lt_le_trans; [exact Hlt|].
  apply Z.pow_le_mono_l. lia.
Qed.

Lemma digits_of_val (n : Z) : 0 <= n -> digits_val 0 (digits_of n) = Some n.
Proof.
  intros Hn. unfold digits_of.
  rewrite strip_zeros_val, digits_val_fixed. f_equal.
  rewrite Z.mod_small; [lia|].
  split; [assumption | now apply below_pow10_log2].
Qed.

Lemma digits_of_digits (n : Z) :
  Forall (fun c => is_digit c = true) (digits_of n).
Proof. apply strip_zeros_digits, digits_fixed_digits. Qed.

Lemma digits_of_nonempty (n : Z) : digits_of n <> [].
Proof.
  apply strip_zeros_nonempty. simpl.
  intros H. apply app_eq_nil in H as [_ H]. discriminate.
Qed.

End NumberFacts.

(** ** Reading back a printed number *)

Section RoundTrip.

(** What a digit is not. *)
Lemma is_digit_class (c : ascii) :
  is_digit c = true ->
  plain c = true /\ Ascii.eqb c "." = false /\ Ascii.eqb c "-" = false
  /\ Ascii.eqb c "+" = false.
Proof.
  destruct c as [[] [] [] [] [] [] [] []]; intros H;
    try discriminate H; repeat split.
Qed.

Lemma digits_plain (cs : list ascii) :
  Forall (fun c => is_digit c = true) cs ->
  Forall (fun c => plain c = true) cs.
Proof.
  intros H. eapply List.Forall_impl; [|exact H].
  intros c Hc. now apply is_digit_class.
Qed.

Lemma split_dot_digits (cs : list ascii) :
  Forall (fun c => is_digit c = true) cs -> split_dot cs = (cs, None).
Proof.
  induction 1 as [|c cs Hc _ IH]; simpl; [reflexivity|].
  apply is_digit_class in Hc as (_ & -> & _). now rewrite IH.
Qed.

Lemma split_dot_point (cs rest : list ascii) :
  Forall (fun c => is_digit c = true) cs ->
  split_dot (cs ++ "."%char :: rest) = (cs, Some rest).
Proof.
  induction 1 as [|c cs Hc _ IH]; simpl; [reflexivity|].
  apply is_digit_class in Hc as (_ & -> & _). now rewrite IH.
Qed.

(** The digits printed for a non-negative mantissa read back as it. *)
Lemma parse_unsigned_printed (a : Z) (e : nat) :
  0 <= a ->
  parse_unsigned
    (digits_of (a / pow10 e)
       ++ match e with
          | O => []
          | S _ => "."%char :: digits_fixed e (a mod pow10 e)
          end)
  = Num (normalize (mkDec a e)).
Proof.
  intros Ha.
  pose proof (pow10_pos e) as Hp.
  pose proof (digits_of_digits (a / pow10 e)) as Hd.
  pose proof (digits_of_nonempty (a / pow10 e)) as Hne.
  assert (Hq : 0 <= a / pow10 e) by (apply Z.div_pos; lia).
  unfold parse_unsigned.
  destruct e as [|e].
  - rewrite app_nil_r, (split_dot_digits _ Hd), app_nil_r.
    destruct (digits_of (a / pow10 0)) as [|c cs] eqn:E; [easy|].
    rewrite <- E, digits_of_val by assumption.
    unfold pow10. simpl. now rewrite Z.div_1_r.
  - rewrite (split_dot_point _ _ Hd).
    destruct (digits_of (a / pow10 (S e)) ++ digits_fixed (S e) (a mod pow10 (S e)))
      as [|c cs] eqn:E.
    { apply app_eq_nil in E as [E _]. easy. }
    rewrite <- E, digits_val_app, digits_of_val by assumption.
    rewrite digits_val_fixed, digits_fixed_length.
    rewrite Z.mod_mod by lia.
    replace (a / pow10 (S e) * pow10 (S e) + a mod pow10 (S e)) with a
      by (pose proof (Z.div_mod a (pow10 (S e))); lia).
    reflexivity.
Qed.

Lemma dec_chars_plain (d : dec) :
  Forall (fun c => plain c = true) (dec_chars d).
Proof.
  unfold dec_chars. apply Forall_app. split.
  - destruct (mant d <? 0); repeat constructor.
  - apply Forall_app. split; [apply digits_plain, digits_of_digits|].
    destruct (scale d); [constructor|].
    constructor; [reflexivity|]. apply digits_plain, digits_fixed_digits.
Qed.

Lemma toString_plain (x : number) :
  Forall (fun c => plain c = true) (chars (toString x)).
Proof.
  destruct x as [|d]; simpl.
  - repeat constructor.
  - rewrite chars_of_chars. apply dec_chars_plain.
Qed.

Lemma toNumber_dec_chars (d : dec) :
  toNumber (of_chars (dec_chars d)) = Num (normalize d).
Proof.
  unfold toNumber.
  rewrite trim_plain by (rewrite chars_of_chars; apply dec_chars_plain).
  rewrite chars_of_chars.
  destruct d as [m e]. unfold dec_chars. simpl mant. simpl scale.
  destruct (m <? 0) eqn:Hs.
  - apply Z.ltb_lt in Hs. simpl app.
    change (Ascii.eqb "-" "-") with true. cbv iota.
    rewrite parse_unsigned_printed by lia.
    replace (Z.abs m) with (- m) by lia.
    unfold normalize. simpl mant. simpl scale.
    rewrite normalize_aux_opp. simpl. f_equal.
    destruct (normalize_aux m e) as [m' e']. simpl. f_equal. lia.
  - apply Z.ltb_ge in Hs. simpl app.
    pose proof (parse_unsigned_printed (Z.abs m) e ltac:(lia)) as P.
    pose proof (digits_of_digits (Z.abs m / pow10 e)) as Hd.
    pose proof (digits_of_nonempty (Z.abs m / pow10 e)) as Hne.
    destruct (digits_of (Z.abs m / pow10 e)) as [|c cs]; [easy|].
    inversion Hd as [|? ? Hc _]; subst.
    apply is_digit_class in Hc as (_ & _ & Hm & Hp).
    simpl app in P. simpl app. cbv iota. rewrite Hm, Hp, P.
    now replace (Z.abs m) with m by lia.
Qed.

(** [+`${x}`] is [x]. *)
Lemma toNumber_toString (x : number) : toNumber (toString x) = canon x.
Proof.
  destruct x as [|d]; [reflexivity|]. simpl.
  now rewrite toNumber_dec_chars, normalize_idempotent.
Qed.

End RoundTrip.

(** ** Arithmetic results are in normal form *)

Section Arithmetic.




Lemma add_canon (x y : number) : canon (add x y) = add x y.
Proof.
  destruct x, y; simpl; try reflexivity. now rewrite normalize_idempotent.
Qed.



Lemma add_zero_l (x : number) : add zero x = canon x.
Proof.
  destruct x as [|[m e]]; [reflexivity|]. simpl. f_equal.
  unfold pow10 at 2. simpl. f_equal. f_equal. lia.
Qed.


(** *** Comparison does not depend on the representation *)









End Arithmetic.

(** ** The decimal operations are the rational ones *)

Section RationalValue.

Lemma Qden_to_Q (d : dec) : Zpos (Qden (to_Q d)) = pow10 (scale d).
Proof.
unfold to_Q. cbn [Qden]. apply Z2Pos.id, pow10_pos.
Qed.

Lemma same_value_Qeq (a b : dec) : same_value a b <-> Qeq (to_Q a) (to_Q b).
Proof.
unfold same_value, Qeq. rewrite !Qden_to_Q. reflexivity.
Qed.

Lemma normalize_Q (d : dec) : Qeq (to_Q (normalize d)) (to_Q d).
Proof. apply same_value_Qeq, normalize_same_value. Qed.

Lemma add_Q (a b : dec) :
  exists r, add (Num a) (Num b) = Num r
            /\ Qeq (to_Q r) (Qplus (to_Q a) (to_Q b)).
Proof.
eexists. split; [reflexivity|]. rewrite normalize_Q.
unfold Qeq, Qplus. cbn [Qnum Qden]. rewrite Pos2Z.inj_mul, !Qden_to_Q.
cbn [to_Q Qnum mant scale]. rewrite pow10_add. ring.
Qed.

Lemma mul_Q (a b : dec) :
  exists r, mul (Num a) (Num b) = Num r
            /\ Qeq (to_Q r) (Qmult (to_Q a) (to_Q b)).
Proof.
eexists. split; [reflexivity|]. rewrite normalize_Q.
unfold Qeq, Qmult. cbn [Qnum Qden]. rewrite Pos2Z.inj_mul, !Qden_to_Q.
cbn [to_Q Qnum mant scale]. rewrite pow10_add. ring.
Qed.

Lemma div100_Q (a : dec) :
  exists r, div100 (Num a) = Num r
            /\ Qeq (to_Q r) (Qdiv (to_Q a) (inject_Z 100)).
Proof.
eexists. split; [reflexivity|]. rewrite normalize_Q.
unfold Qeq, Qdiv, Qmult, Qinv, inject_Z. cbn [Qnum Qden].
rewrite Pos2Z.inj_mul, !Qden_to_Q.
cbn [to_Q Qnum mant scale]. rewrite pow10_add.
change (pow10 2) with 100. ring.
Qed.

Lemma floor_Q (a : dec) : floor (Num a) = of_Z (Qfloor (to_Q a)).
Proof.
unfold floor, lift1, of_Z, Qfloor. do 2 f_equal.
unfold to_Q. now rewrite Z2Pos.id by apply pow10_pos.
Qed.

Lemma ltb_Q (a b : dec) : ltb (Num a) (Num b) = true <-> Qlt (to_Q a) (to_Q b).
Proof.
unfold ltb, Qlt. rewrite !Qden_to_Q, Z.ltb_lt. reflexivity.
Qed.

End RationalValue.


(** ** The constructor *)

Section Constructor.

Lemma append_empty_r (s : string) : s +:+ "" = s.
Proof.
  induction s as [|c s IH]; [reflexivity|].
  change (String c (s +:+ "") = String c s). now rewrite IH.
Qed.

Lemma value_new_Stat (t v : string) (r : nat) :
  value (new_Stat t v r) = toNumber (replace_plus_percent v).
Proof. reflexivity. Qed.



(** A Stat built from a printed number, with or without a percent sign
    after it, has that number as its value. *)
Lemma value_of_printed (t suffix : string) (x : number) (r : nat) :
  replace_plus_percent suffix = "" ->
  value (new_Stat t (toString x +:+ suffix) r) = canon x.
Proof.
  intros H. rewrite value_new_Stat, replace_append, H.
  rewrite append_empty_r.
  rewrite replace_plain by apply toString_plain.
  apply toNumber_toString.
Qed.

Lemma displayModifier_replaced (t v : string) (r : nat) :
  replace_plus_percent (displayModifier (new_Stat t v r)) = "".
Proof.
  change (displayModifier (new_Stat t v r))
    with (if endsWith t "%" || endsWith v "%" then "%" else "").
  now destruct (endsWith t "%" || endsWith v "%").
Qed.

End Constructor.

(** ** Serialization *)

(** C10: building a Stat from the three components of [serialize] gives back
    the type, the numeric value and the roll count of the serialized Stat. *)
Theorem serialize_round_trip (t v : string) (r : nat) :
  let s := new_Stat t v r in
  let '(t', v', r') := serialize s in
  type (new_Stat t' v' r') = type s
  /\ value (new_Stat t' v' r') = value s
  /\ rolls (new_Stat t' v' r') = rolls s.
Proof.
  cbv zeta. unfold serialize.
  split; [reflexivity|]. split; [|reflexivity].
  rewrite !value_new_Stat.
  change (rawValue (new_Stat t v r)) with (replace_plus_percent v).
  rewrite !replace_append, replace_idempotent.
  change (replace_plus_percent "+") with "".
  match goal with
  | |- context [replace_plus_percent (if ?b then _ else _)] => destruct b
  end.
  - change (replace_plus_percent "%") with "". now rewrite append_empty_r.
  - change (replace_plus_percent "") with "". now rewrite append_empty_r.
Qed.

(** ** Addition *)


(** ** Mapping a callback that can throw *)

Section MapResult.

Context {A B : Type}.

Lemma map_result_ok (f : A -> result B) (g : A -> B) (xs : list A) :
  (forall x, f x = Ok (g x)) -> map_result f xs = Ok (map g xs).
Proof.
  intros H. induction xs as [|x xs IH]; [reflexivity|].
  cbn [map_result map]. now rewrite H, IH.
Qed.


End MapResult.

(** ** The optimization value *)

Section OptimizationValue.

Variable statTypeMap : string -> option (list string).

Lemma isPercent_new_Stat (t v : string) (r : nat) :
  isPercent (new_Stat t v r)
  = String.eqb "%" (displayModifier (new_Stat t v r))
    && includes mixedTypes (displayType (new_Stat t v r)).
Proof. reflexivity. Qed.






End OptimizationValue.

(** ** Slicing *)

Section Slicing.

Lemma property_In {A : Type} (table : list (string * A)) (key : string)
  (a : A) :
  property table key = Some a -> In (key, a) table.
Proof.
  induction table as [|[k b] table IH]; [discriminate|].
  cbn [property]. destruct (String.eqb key k) eqn:E.
  - intros H. injection H as <-. apply String.eqb_eq in E. subst k. now left.
  - intros H. right. now apply IH.
Qed.



End Slicing.

(** ** Flat values *)

Section FlatValues.

Variable statTypeMap : string -> option (list string).





End FlatValues.

(** ** The selected-characters list *)

Section SelectedCharacters.

Lemma splice_remove {A : Type} (l : list A) (i : nat) (x : A) :
  l !! i = Some x -> splice l i 1 [] = ([x], delete i l).
Proof.
  intros H. unfold splice.
  rewrite (drop_S l x i H), Nat.add_1_r, delete_take_drop.
  now destruct (drop (S i) l).
Qed.

Lemma splice_insert {A : Type} (l : list A) (k : nat) (x : A) :
  snd (splice l k 0 [x]) = take k l ++ x :: drop k l.
Proof. unfold splice. cbn [snd]. now rewrite Nat.add_0_r. Qed.

Lemma splice_insert_Permutation {A : Type} (l : list A) (k : nat) (x : A) :
  Permutation (snd (splice l k 0 [x])) (x :: l).
Proof.
  rewrite splice_insert. symmetry.
  rewrite <- (take_drop k l) at 1. apply Permutation_middle.
Qed.

(** C7: moving an entry of the selected-characters list from a position
    within the list leaves a permutation of the list, touches nothing else
    in the profile, and returns the profile itself when the two positions
    are equal. *)
Theorem moveSelectedCharacter_permutation (p : PlayerProfile)
  (fromIndex : nat) (toIndex : option nat) :
  (fromIndex < length (selectedCharacters p))%nat ->
  exists p',
    moveSelectedCharacter fromIndex toIndex p = Some p'
    /\ Permutation (selectedCharacters p') (selectedCharacters p)
    /\ characters p' = characters p
    /\ globalSettings p' = globalSettings p
    /\ (toIndex = Some fromIndex -> p' = p).
Proof.
  intros Hlt. unfold moveSelectedCharacter.
  destruct (decide (Some fromIndex = toIndex)) as [E|E].
  - exists p. repeat split; reflexivity.
  - destruct (lookup_lt_is_Some_2 _ _ Hlt) as [oldValue Hx].
    rewrite (splice_remove _ _ _ Hx).
    pose proof (delete_Permutation _ _ _ Hx) as HP.
    destruct toIndex as [toIndex|].
    + destruct (fromIndex <? toIndex)%nat;
        (eexists; split; [reflexivity|]);
        (split; [cbn [selectedCharacters withSelectedCharacters];
                 rewrite splice_insert_Permutation; now symmetry |]);
        (split; [reflexivity|]); (split; [reflexivity|]);
        intros H; now elim E.
    + eexists. split; [reflexivity|].
      split; [cbn [selectedCharacters withSelectedCharacters app];
              now symmetry |].
      split; [reflexivity|]. split; [reflexivity|]. intros H; discriminate H.
Qed.

(** C8: unselecting a position within the list removes exactly that entry,
    unlocks the entry's character and leaves every other character and the
    rest of the profile as they were; a position past the end changes
    nothing. *)
Theorem unselectCharacter_spec (p : PlayerProfile) (i : nat) :
  (forall entry oldCharacter,
      selectedCharacters p !! i = Some entry ->
      characters p !! sel_id entry = Some oldCharacter ->
      exists p',
        unselectCharacter i p = Ok p'
        /\ selectedCharacters p' = delete i (selectedCharacters p)
        /\ characters p' !! sel_id entry
           = Some (withOptimizerSettings oldCharacter
                     (unlock (optimizerSettings oldCharacter)))
        /\ isLocked (unlock (optimizerSettings oldCharacter)) = false
        /\ (forall k, k <> sel_id entry ->
              characters p' !! k = characters p !! k)
        /\ globalSettings p' = globalSettings p)
  /\ ((length (selectedCharacters p) <= i)%nat ->
      unselectCharacter i p = Ok p).
Proof.
  split.
  - intros entry oldCharacter Hx Hc. unfold unselectCharacter.
    pose proof (lookup_lt_Some _ _ _ Hx) as Hlt.
    apply Nat.ltb_lt in Hlt. rewrite Hlt.
    rewrite (splice_remove _ _ _ Hx), Hc.
    eexists. split; [reflexivity|].
    cbn [selectedCharacters characters globalSettings withCharacters
         withSelectedCharacters].
    split; [reflexivity|].
    split; [apply lookup_insert_eq|].
    split; [reflexivity|].
    split; [|reflexivity].
    intros k Hk. now apply lookup_insert_ne.
  - intros Hge. unfold unselectCharacter.
    apply Nat.ltb_ge in Hge. now rewrite Hge.
Qed.

(** C9: with a position at or past the end of the selected-characters list,
    [changeCharacterTarget] and [finishEditCharacterTarget] return the
    profile unchanged. *)
Theorem target_change_out_of_range
  (withTarget : OptimizerSettings -> OptimizationPlan -> OptimizerSettings)
  (p : PlayerProfile) (characterIndex : nat) (newTarget : OptimizationPlan) :
  (length (selectedCharacters p) <= characterIndex)%nat ->
  changeCharacterTarget characterIndex newTarget p = p
  /\ finishEditCharacterTarget withTarget characterIndex newTarget p = Ok p.
Proof.
  intros H. apply Nat.leb_le in H.
  unfold changeCharacterTarget, finishEditCharacterTarget.
  now rewrite H.
Qed.

End SelectedCharacters.

(** * Concrete evaluations *)

Example toNumber_decimal : toNumber "5.50" = lit 55 1.
Proof. reflexivity. Qed.

Example toNumber_spaces : toNumber " -12 " = of_Z (-12).
Proof. reflexivity. Qed.

Example toNumber_junk : toNumber "abc" = NaN.
Proof. reflexivity. Qed.

Example toString_product : toString (mul (lit 302 2) (of_Z 5)) = "15.1".
Proof. reflexivity. Qed.

Example toString_small : toString (lit (-5) 3) = "-0.005".
Proof. reflexivity. Qed.

Example new_Stat_percent :
  let s := new_Stat "Health" "+1.5%" 3 in
  (displayModifier s, displayType s, rawValue s, value s, isPercent s,
   displayValue s)
  = ("%", "Health", "1.5", lit 15 1, true, "1.5").
Proof. reflexivity. Qed.

Example new_Stat_typed_percent :
  let s := new_Stat "Critical Chance %" "2.25" 1 in
  (displayModifier s, displayType s, value s, isPercent s)
  = ("%", "Critical Chance", lit 225 2, false).
Proof. reflexivity. Qed.

Example getOptimizationValue_percent_health :
  getOptimizationValue sampleStatTypeMap (new_Stat "Health" "1.5%" 1) hero
  = Ok (of_Z 6).
Proof. vm_compute. reflexivity. Qed.

Example getOptimizationValue_unmapped :
  getOptimizationValue sampleStatTypeMap (new_Stat "Stamina" "5" 1) hero
  = Throw TypeError.
Proof. vm_compute. reflexivity. Qed.

Example getOptimizationValue_no_base :
  getOptimizationValue sampleStatTypeMap (new_Stat "Health" "1.5%" 1) novice
  = Throw TypeError.
Proof. vm_compute. reflexivity. Qed.

(** ** The optimization value *)



Example physical_crit_chance_value :
  getOptimizationValue sampleStatTypeMap
    (new_Stat "Physical Critical Chance %" "5" 1) hero = Ok (of_Z 10)
  /\ weighted_sum ["physCritChance"] (target_weight hero)
       (effective_contribution (new_Stat "Physical Critical Chance %" "5" 1)
          (list_to_map heroBase)) = NaN.
Proof. split; vm_compute; reflexivity. Qed.

Example special_crit_chance_value :
  getOptimizationValue sampleStatTypeMap
    (new_Stat "Special Critical Chance %" "5" 1) hero = Ok (of_Z 0)
  /\ weighted_sum ["specCritChance"] (target_weight hero)
       (effective_contribution (new_Stat "Special Critical Chance %" "5" 1)
          (list_to_map heroBase)) = NaN.
Proof. split; vm_compute; reflexivity. Qed.

Example percent_health_value :
  getOptimizationValue sampleStatTypeMap (new_Stat "Health" "1.5%" 1) hero
  = Ok (of_Z 6)
  /\ weighted_sum ["health"] (target_weight hero)
       (effective_contribution (new_Stat "Health" "1.5%" 1)
          (list_to_map heroBase)) = lit 675 2.
Proof. split; vm_compute; reflexivity. Qed.


Example critical_chance_examples :
  getOptimizationValue sampleStatTypeMap
    (new_Stat "Special Critical Chance %" "1.5" 1) hero = Ok (of_Z 0)
  /\ getOptimizationValue sampleStatTypeMap
       (new_Stat "Physical Critical Chance %" "1.5" 1) hero = Ok (of_Z 3).
Proof. split; vm_compute; reflexivity. Qed.


Example speed_values_beyond_cap :
  caps (target (optimizerSettings hero)) !! "speed" = Some (of_Z 10)
  /\ getOptimizationValue sampleStatTypeMap (new_Stat "Speed" "10" 1) hero
     = Ok (of_Z 10)
  /\ getOptimizationValue sampleStatTypeMap (new_Stat "Speed" "20" 1) hero
     = Ok (of_Z 20).
Proof. repeat split; vm_compute; reflexivity. Qed.


(** ** Flat values *)


Example getFlatValuesForCharacter_percent :
  getFlatValuesForCharacter sampleStatTypeMap (new_Stat "Health" "1.5%" 1) hero
  = Ok [new_Stat "Health" "2.25" 1].
Proof. vm_compute. reflexivity. Qed.

Example getFlatValuesForCharacter_flat :
  getFlatValuesForCharacter sampleStatTypeMap
    (new_Stat "Physical Critical Chance %" "+1.5" 2) novice
  = Ok [new_Stat "Physical Critical Chance %" "1.5" 1].
Proof. vm_compute. reflexivity. Qed.

Example getFlatValuesForCharacter_no_base :
  getFlatValuesForCharacter sampleStatTypeMap (new_Stat "Health" "1.5%" 1) novice
  = Throw (Error "Stat is given as a percentage, but NOVICE has no base stats").
Proof. vm_compute. reflexivity. Qed.

(** ** Slicing *)


Example upgradeSecondary_values :
  value (upgradeSecondary (new_Stat "Offense %" "0.5" 1)) = lit 151 2
  /\ value (upgradeSecondary (new_Stat "Speed" "5" 2)) = of_Z 6.
Proof. split; vm_compute; reflexivity. Qed.


Example upgradeSecondary_negative :
  value (new_Stat "Defense" "-1" 1) = of_Z (-1)
  /\ value (upgradeSecondary (new_Stat "Defense" "-1" 1)) = lit (-163) 2.
Proof. split; vm_compute; reflexivity. Qed.

(** ** Addition *)


Example plus_values :
  plus (new_Stat "Health" "1.5%" 1) (IsStat (new_Stat "Health %" "2" 3))
  = Ok (new_Stat "Health" "3.5%" 1)
  /\ plus (new_Stat "Health" "1.5%" 1) (IsStat (new_Stat "Health" "2" 3))
     = Throw (Error "Can't add two Stats of different types")
  /\ plus (new_Stat "Health" "1.5%" 1) NotStat
     = Throw (Error "Can't add a non-Stat to a Stat").
Proof. repeat split; vm_compute; reflexivity. Qed.

(** ** The selected-characters list *)

Lemma moveSelectedCharacter_permutation_witness :
  (0 < length (selectedCharacters heroProfile))%nat
  /\ exists p',
       moveSelectedCharacter 0 (Some 2%nat) heroProfile = Some p'
       /\ Permutation (selectedCharacters p') (selectedCharacters heroProfile)
       /\ characters p' = characters heroProfile
       /\ globalSettings p' = globalSettings heroProfile
       /\ (Some 2%nat = Some 0%nat -> p' = heroProfile).
Proof.
  assert (H : (0 < length (selectedCharacters heroProfile))%nat)
    by (simpl; lia).
  split; [exact H|].
  apply (moveSelectedCharacter_permutation heroProfile 0 (Some 2%nat) H).
Defined.

Example moveSelectedCharacter_down :
  selectedCharacters <$> moveSelectedCharacter 0 (Some 2%nat) heroProfile
  = Some [mkSelected "NOVICE" heroPlan; mkSelected "HERO" (samplePlan [] []);
          mkSelected "HERO" heroPlan].
Proof. reflexivity. Qed.

Example moveSelectedCharacter_up :
  selectedCharacters <$> moveSelectedCharacter 2 (Some 0%nat) heroProfile
  = Some [mkSelected "HERO" heroPlan; mkSelected "HERO" (samplePlan [] []);
          mkSelected "NOVICE" heroPlan].
Proof. reflexivity. Qed.

Example moveSelectedCharacter_top :
  selectedCharacters <$> moveSelectedCharacter 1 None heroProfile
  = Some [mkSelected "NOVICE" heroPlan; mkSelected "HERO" heroPlan;
          mkSelected "HERO" (samplePlan [] [])].
Proof. reflexivity. Qed.

Lemma unselectCharacter_spec_witness :
  selectedCharacters heroProfile !! 1%nat = Some (mkSelected "NOVICE" heroPlan)
  /\ characters heroProfile !! "NOVICE" = Some novice
  /\ (exists p',
        unselectCharacter 1 heroProfile = Ok p'
        /\ selectedCharacters p' = delete 1%nat (selectedCharacters heroProfile)
        /\ characters p' !! "NOVICE"
           = Some (withOptimizerSettings novice
                     (unlock (optimizerSettings novice)))
        /\ isLocked (unlock (optimizerSettings novice)) = false
        /\ (forall k, k <> "NOVICE" ->
              characters p' !! k = characters heroProfile !! k)
        /\ globalSettings p' = globalSettings heroProfile)
  /\ ((length (selectedCharacters heroProfile) <= 3)%nat
      /\ unselectCharacter 3 heroProfile = Ok heroProfile).
Proof.
  assert (H1 : selectedCharacters heroProfile !! 1%nat
               = Some (mkSelected "NOVICE" heroPlan)) by reflexivity.
  assert (H2 : characters heroProfile !! "NOVICE" = Some novice)
    by (vm_compute; reflexivity).
  assert (H3 : (length (selectedCharacters heroProfile) <= 3)%nat)
    by (simpl; lia).
  split; [exact H1|]. split; [exact H2|].
  split.
  - apply (proj1 (unselectCharacter_spec heroProfile 1)
             (mkSelected "NOVICE" heroPlan) novice H1 H2).
  - split; [exact H3|].
    apply (proj2 (unselectCharacter_spec heroProfile 3) H3).
Defined.

Lemma target_change_out_of_range_witness :
  (length (selectedCharacters heroProfile) <= 3)%nat
  /\ changeCharacterTarget 3 heroPlan heroProfile = heroProfile
  /\ finishEditCharacterTarget (fun o _ => o) 3 heroPlan heroProfile
     = Ok heroProfile.
Proof.
  assert (H : (length (selectedCharacters heroProfile) <= 3)%nat)
    by (simpl; lia).
  split; [exact H|].
  apply (target_change_out_of_range (fun o _ => o) heroProfile 3 heroPlan H).
Defined.

Example changeCharacterTarget_in_range :
  selectedCharacters (changeCharacterTarget 1 (samplePlan [] []) heroProfile)
  = [mkSelected "HERO" heroPlan; mkSelected "NOVICE" (samplePlan [] []);
     mkSelected "HERO" (samplePlan [] [])].
Proof. reflexivity. Qed.

(** ** Outside the hypotheses *)

(** A display type that [statTypeMap] does not know makes the conversion
    throw, whatever the stat. *)
Example getFlatValuesForCharacter_unmapped :
  getFlatValuesForCharacter sampleStatTypeMap (new_Stat "Stamina" "5" 1) hero
  = Throw TypeError.
Proof. reflexivity. Qed.

(** An entry whose character is not in the profile makes [unselectCharacter]
    throw. *)
Example unselectCharacter_unknown_character :
  unselectCharacter 0
    (sampleProfile [novice] [mkSelected "HERO" heroPlan]) = Throw TypeError.
Proof. vm_compute. reflexivity. Qed.

(** A position past the end makes [moveSelectedCharacter] insert
    [undefined]. *)
Example moveSelectedCharacter_past_end :
  moveSelectedCharacter 5 None heroProfile = None.
Proof. reflexivity. Qed.

(** * Further properties *)

(** ** Normal forms are unique *)

Section UniqueNormalForm.

Lemma normalize_scale_up (k : nat) : forall m e,
  normalize (mkDec (m * pow10 k) (e + k)) = normalize (mkDec m e).
Proof.
  induction k as [|k IH]; intros m e.
  - rewrite pow10_0, Z.mul_1_r, Nat.add_0_r. reflexivity.
  - rewrite Nat.add_succ_r. unfold normalize. cbn [mant scale normalize_aux].
    rewrite pow10_S.
    replace (m * (10 * pow10 k)) with (m * pow10 k * 10) by ring.
    rewrite Z.mod_mul by lia. cbn [Z.eqb].
    rewrite Z.div_mul by lia. apply IH.
Qed.

(** Two decimals of the same value have the same normal form. *)
Lemma normalize_ext (a b : dec) : same_value a b -> normalize a = normalize b.
Proof.
  destruct a as [m1 e1], b as [m2 e2]. unfold same_value. cbn [mant scale].
  intros H.
  rewrite <- (normalize_scale_up e2 m1 e1), <- (normalize_scale_up e1 m2 e2).
  rewrite H, (Nat.add_comm e1 e2). reflexivity.
Qed.

Lemma same_value_refl (a : dec) : same_value a a.
Proof. reflexivity. Qed.

Lemma same_value_sym (a b : dec) : same_value a b -> same_value b a.
Proof. unfold same_value. intros H. now symmetry. Qed.

Lemma same_value_trans (a b c : dec) :
  same_value a b -> same_value b c -> same_value a c.
Proof.
  unfold same_value. intros H1 H2.
  pose proof (pow10_pos (scale b)) as Pb.
  apply (Z.mul_reg_r _ _ (pow10 (scale b))); [lia|].
  transitivity (mant b * pow10 (scale a) * pow10 (scale c)); [rewrite <- H1; ring|].
  transitivity (mant b * pow10 (scale c) * pow10 (scale a)); [ring|].
  rewrite H2. ring.
Qed.

End UniqueNormalForm.

(** ** The algebra of the decimal operations *)

Section Algebra.



Lemma add_comm (x y : number) : add x y = add y x.
Proof.
  destruct x as [|a], y as [|b]; try reflexivity.
  unfold add, lift2. f_equal. f_equal.
  rewrite (Nat.add_comm (scale a)). f_equal. ring.
Qed.



Lemma add_zero_r (x : number) : add x zero = canon x.
Proof. rewrite add_comm. apply add_zero_l. Qed.

Lemma mul_comm (x y : number) : mul x y = mul y x.
Proof.
  destruct x as [|a], y as [|b]; try reflexivity.
  unfold mul, lift2. f_equal. f_equal.
  rewrite (Nat.add_comm (scale a)). f_equal. ring.
Qed.

Lemma mul_normalize_r (a b : dec) :
  mul (Num a) (Num (normalize b)) = mul (Num a) (Num b).
Proof.
  unfold mul, lift2. f_equal. apply normalize_ext.
  pose proof (normalize_same_value b) as H.
  destruct (normalize b) as [m' e'], b as [m e], a as [ma ea].
  unfold same_value in *. cbn [mant scale] in *. rewrite !pow10_add.
  transitivity (ma * pow10 ea * (m' * pow10 e)); [ring|].
  rewrite H. ring.
Qed.

Lemma mul_normalize_l (a b : dec) :
  mul (Num (normalize a)) (Num b) = mul (Num a) (Num b).
Proof. now rewrite mul_comm, mul_normalize_r, mul_comm. Qed.




Lemma sub_diag (x : number) : x <> NaN -> sub x x = zero.
Proof.
  destruct x as [|[m e]]; [contradiction|]. intros _.
  unfold sub, lift2, zero, of_Z. f_equal. cbn [mant scale].
  rewrite Z.sub_diag. exact (normalize_scale_up (e + e) 0 0).
Qed.

End Algebra.

(** ** More on strings *)

Section MoreStrings.

Lemma endsWith_append_percent (s : string) : endsWith (s +:+ "%") "%" = true.
Proof.
  unfold endsWith. rewrite chars_append, rev_app_distr. reflexivity.
Qed.

Lemma endsWith_append_empty (s : string) :
  Forall (fun c => plain c = true) (chars s) -> endsWith (s +:+ "") "%" = false.
Proof. rewrite append_empty_r. apply endsWith_percent_plain. Qed.

Lemma endsWith_includes (s : string) :
  endsWith s "%" = true -> includes_percent s = true.
Proof.
  intros H. apply endsWith_char_In in H. unfold includes_percent.
  apply existsb_exists. exists "%"%char. split; [assumption | reflexivity].
Qed.

Lemma mixed_type_no_percent (s : string) :
  includes mixedTypes s = true -> includes_percent s = false.
Proof.
  unfold includes. rewrite existsb_exists. intros (x & Hx & E).
  apply String.eqb_eq in E. subst x.
  assert (F : forallb (fun x => negb (includes_percent x)) mixedTypes = true)
    by reflexivity.
  rewrite forallb_forall in F. apply negb_true_iff. now apply F.
Qed.

(** A string with a sign in front and no percent sign inside ends with a
    percent sign exactly when one is appended. *)
Lemma endsWith_serialized (raw suffix : string) :
  includes_percent raw = false ->
  suffix = "%" \/ suffix = "" ->
  endsWith ("+" +:+ raw +:+ suffix) "%" = String.eqb suffix "%".
Proof.
  intros Hr [-> | ->].
  - change ("+" +:+ raw +:+ "%") with (("+" +:+ raw) +:+ "%").
    apply endsWith_append_percent.
  - rewrite append_empty_r.
    destruct (endsWith ("+" +:+ raw) "%") eqn:E; [|reflexivity].
    apply endsWith_char_In in E. rewrite chars_append in E.
    destruct E as [E | E]; [discriminate E|].
    exfalso. unfold includes_percent in Hr.
    assert (H : existsb (fun c => Ascii.eqb c "%") (chars raw) = true).
    { apply existsb_exists. exists "%"%char. now split. }
    congruence.
Qed.

Lemma replaced_no_percent (s : string) :
  includes_percent (replace_plus_percent s) = false.
Proof.
  unfold includes_percent, replace_plus_percent. rewrite chars_of_chars.
  destruct (existsb _ _) eqn:E; [|reflexivity].
  apply existsb_exists in E as (c & Hc & Ec).
  apply List.filter_In in Hc as [_ Hc]. apply Ascii.eqb_eq in Ec. subst c.
  discriminate Hc.
Qed.

End MoreStrings.

(** ** Subtraction *)

Section Subtraction.



Lemma toFixed2_plain (x : number) :
  Forall (fun c => plain c = true) (chars (toFixed2 x)).
Proof.
  destruct x as [|d]; cbn [toFixed2].
  - repeat constructor.
  - rewrite chars_of_chars. apply Forall_app. split.
    + destruct (mant d <? 0); repeat constructor.
    + apply Forall_app. split; [apply digits_plain, digits_of_digits|].
      constructor; [reflexivity|]. apply digits_plain, digits_fixed_digits.
Qed.




Lemma has_fraction_false (x : number) :
  canon x = x -> has_fraction x = false -> two_decimals x.
Proof.
  destruct x as [|d]; [easy|]. cbn [has_fraction two_decimals]. intros _ H.
  apply negb_false_iff, Nat.eqb_eq in H. lia.
Qed.



End Subtraction.

(** ** Sums and differences keep the kind of the receiver *)

Section Kind.

(** A Stat rebuilt from the type of a Stat, a printed number and the display
    modifier of that Stat has its display modifier, display type and
    percent-ness. *)
Lemma rebuilt_kind (t v body : string) (r r' : nat) :
  Forall (fun c => plain c = true) (chars body) ->
  let s := new_Stat t v r in
  let s' := new_Stat t (body +:+ displayModifier s) r' in
  displayModifier s' = displayModifier s
  /\ displayType s' = displayType s
  /\ isPercent s' = isPercent s.
Proof.
  intros Hb. cbv zeta.
  assert (Hm : displayModifier (new_Stat t (body +:+ displayModifier (new_Stat t v r)) r')
               = displayModifier (new_Stat t v r)).
  { change (displayModifier (new_Stat t v r))
      with (if endsWith t "%" || endsWith v "%" then "%" else "").
    change (displayModifier (new_Stat t ?x r'))
      with (if endsWith t "%" || endsWith x "%" then "%" else "").
    destruct (endsWith t "%" || endsWith v "%") eqn:E.
    - now rewrite endsWith_append_percent, orb_true_r.
    - apply orb_false_elim in E as [-> _].
      now rewrite endsWith_append_empty. }
  split; [exact Hm|]. split; [reflexivity|].
  rewrite !isPercent_new_Stat, Hm. reflexivity.
Qed.

Lemma plus_ok (a b : Stat) :
  displayType b = displayType a -> isPercent b = isPercent a ->
  plus a (IsStat b)
  = Ok (new_Stat (type a)
          (toString (add (value a) (value b)) +:+ displayModifier a) 1).
Proof.
  intros H1 H2. unfold plus.
  now rewrite H1, H2, String.eqb_refl, Bool.eqb_reflx.
Qed.

Lemma plus_ok_inv (a b s : Stat) :
  plus a (IsStat b) = Ok s ->
  displayType b = displayType a /\ isPercent b = isPercent a
  /\ s = new_Stat (type a)
           (toString (add (value a) (value b)) +:+ displayModifier a) 1.
Proof.
  unfold plus.
  destruct (String.eqb (displayType b) (displayType a)) eqn:E1;
    destruct (Bool.eqb (isPercent b) (isPercent a)) eqn:E2;
    cbn [negb orb]; try discriminate.
  intros H. injection H as <-.
  apply String.eqb_eq in E1. apply Bool.eqb_prop in E2. now repeat split.
Qed.


(** X2: the Stat returned by [plus] has the display modifier, display type
    and percent-ness of the receiver and one roll, so it can be added to the
    receiver again. *)
Theorem plus_keeps_kind (t v : string) (r : nat) (that : js_value)
  (sum_stat : Stat) :
  let this := new_Stat t v r in
  plus this that = Ok sum_stat ->
  displayModifier sum_stat = displayModifier this
  /\ displayType sum_stat = displayType this
  /\ isPercent sum_stat = isPercent this
  /\ rolls sum_stat = 1%nat
  /\ exists again, plus sum_stat (IsStat this) = Ok again.
Proof.
  cbv zeta. set (this := new_Stat t v r).
  unfold plus at 1. destruct that as [s|]; [|discriminate].
  destruct (negb _ || negb _); [discriminate|].
  intros H. injection H as <-.
  destruct (rebuilt_kind t v (toString (add (value this) (value s)))
              r 1 (toString_plain _)) as (Hm & Ht & Hp).
  fold this in Hm, Ht, Hp. change (type this) with t.
  set (sum_stat := new_Stat t
                     (toString (add (value this) (value s))
                        +:+ displayModifier this) 1) in *.
  split; [exact Hm|]. split; [exact Ht|]. split; [exact Hp|].
  split; [reflexivity|].
  eexists. apply plus_ok; now symmetry.
Qed.

(** X3: the Stat returned by [minus] has the display modifier, display type
    and percent-ness of the receiver. *)
Theorem minus_keeps_kind (t v : string) (r : nat) (that : js_value)
  (diff_stat : Stat) :
  let this := new_Stat t v r in
  minus this that = Ok diff_stat ->
  displayModifier diff_stat = displayModifier this
  /\ displayType diff_stat = displayType this
  /\ isPercent diff_stat = isPercent this.
Proof.
  cbv zeta. unfold minus. destruct that as [s|]; [|discriminate].
  destruct (negb _); [discriminate|].
  intros H. injection H as <-.
  apply (rebuilt_kind t v _ r 1).
  destruct (has_fraction _); [apply toFixed2_plain | apply toString_plain].
Qed.

End Kind.

(** ** Sums of Stats *)

Section Sums.

Lemma plus_value (t v : string) (r : nat) (b s : Stat) :
  plus (new_Stat t v r) (IsStat b) = Ok s ->
  value s = add (value (new_Stat t v r)) (value b).
Proof.
  intros H. apply plus_ok_inv in H as (_ & _ & ->).
  rewrite value_of_printed by apply (displayModifier_replaced t v r).
  apply add_canon.
Qed.

(** X4: addition of Stats is commutative in value: when [a.plus(b)]
    succeeds, so does [b.plus(a)], with the same value. *)
Theorem plus_value_comm (ta va tb vb : string) (ra rb : nat) (ab : Stat) :
  let a := new_Stat ta va ra in
  let b := new_Stat tb vb rb in
  plus a (IsStat b) = Ok ab ->
  exists ba, plus b (IsStat a) = Ok ba /\ value ba = value ab.
Proof.
  cbv zeta. intros H.
  pose proof (plus_value _ _ _ _ _ H) as Hv.
  apply plus_ok_inv in H as (Ht & Hp & _).
  eexists. split; [apply plus_ok; now symmetry|].
  rewrite value_of_printed by apply (displayModifier_replaced tb vb rb).
  rewrite add_canon, Hv. apply add_comm.
Qed.


End Sums.

(** ** Adding and taking away *)

Section AddThenTakeAway.



End AddThenTakeAway.

(** ** The optimization value of a sum *)

Section ValueOfSum.

Variable statTypeMap : string -> option (list string).






(** X8: [getOptimizationValue] throws exactly when the display type is not
    Special Critical Chance and either it is unknown (not Physical Critical
    Chance and not a key of the table), or the stat is a percent stat with at
    least one stat type and the character has no base stats; what it throws is
    a TypeError. *)
Theorem getOptimizationValue_throws (s : Stat) (c : Character) :
  ((exists e, getOptimizationValue statTypeMap s c = Throw e)
   <-> (displayType s <> "Special Critical Chance"
        /\ ((displayType s <> "Physical Critical Chance"
             /\ statTypeMap (displayType s) = None)
            \/ (isPercent s = true
                /\ baseStats (playerValues c) = None
                /\ (displayType s = "Physical Critical Chance"
                    \/ exists ts, statTypeMap (displayType s) = Some ts
                                  /\ ts <> [])))))
  /\ (forall e, getOptimizationValue statTypeMap s c = Throw e -> e = TypeError).
Proof.
  unfold getOptimizationValue.
  destruct (String.eqb (displayType s) "Special Critical Chance") eqn:Es.
  { apply String.eqb_eq in Es. split; [|intros e H; discriminate H].
    split; [intros [e H]; discriminate H | intros [H _]; contradiction]. }
  apply String.eqb_neq in Es.
  assert (Hpercent : forall ts,
    (exists e, (if isPercent s
                then do terms <- map_result (fun statType =>
                         do base <- base_stat c statType;
                         Ok (mul (target_weight c statType)
                               (floor (div100 (mul base (value s)))))) ts;
                     Ok (sum terms)
                else Ok (sum (map (fun statType =>
                           mul (target_weight c statType) (value s)) ts)))
               = Throw e)
    <-> (isPercent s = true /\ baseStats (playerValues c) = None /\ ts <> [])).
  { intros ts. destruct (isPercent s).
    - unfold base_stat.
      destruct (baseStats (playerValues c)) as [base|].
      + erewrite map_result_ok by (intros x; reflexivity). cbn [bind].
        split; [intros [e H]; discriminate H | intros (_ & H & _); discriminate H].
      + destruct ts as [|t ts].
        * cbn [map_result bind].
          split; [intros [e H]; discriminate H | intros (_ & _ & H); contradiction].
        * cbn [map_result bind].
          split; [intros _; repeat split; discriminate
                 | intros _; eexists; reflexivity].
    - split; [intros [e H]; discriminate H | intros (H & _); discriminate H]. }
  assert (Htype : forall ts e,
    (if isPercent s
     then do terms <- map_result (fun statType =>
              do base <- base_stat c statType;
              Ok (mul (target_weight c statType)
                    (floor (div100 (mul base (value s)))))) ts;
          Ok (sum terms)
     else Ok (sum (map (fun statType =>
                mul (target_weight c statType) (value s)) ts)))
    = Throw e -> e = TypeError).
  { intros ts e. destruct (isPercent s); [|discriminate].
    unfold base_stat. destruct (baseStats (playerValues c)) as [base|].
    - erewrite map_result_ok by (intros x; reflexivity). discriminate.
    - destruct ts as [|t ts]; cbn [map_result bind]; [discriminate|].
      intros H. now injection H as <-. }
  destruct (String.eqb "Physical Critical Chance" (displayType s)) eqn:Ep.
  - apply String.eqb_eq in Ep. cbn [bind]. split; [|apply Htype].
    rewrite Hpercent. split.
    + intros (H1 & H2 & _). split; [exact Es|]. right. auto.
    + intros (_ & [[H _] | (H1 & H2 & _)]); [now elim H|].
      repeat split; try assumption. discriminate.
  - apply String.eqb_neq in Ep.
    destruct (statTypeMap (displayType s)) as [ts|] eqn:Et; cbn [bind].
    + split; [|apply Htype]. rewrite Hpercent. split.
      * intros (H1 & H2 & H3). split; [exact Es|]. right.
        repeat split; try assumption. right. now exists ts.
      * intros (_ & [[_ H] | (H1 & H2 & [H | (ts' & H & H3)])]);
          [discriminate H | now elim Ep |].
        injection H as <-. now repeat split.
    + split; [|intros e H; now injection H as <-].
      split; [|intros _; eexists; reflexivity].
      intros _. split; [exact Es|]. left. split; [congruence | reflexivity].
Qed.

End ValueOfSum.

(** ** Upgrades *)

Section Upgrades.

(** X9: when [upgradeSecondary] builds a new Stat (the type has a factor or
    is Speed), that Stat has one roll whatever the original had, and it is a
    percent stat only through its type: a percent sign carried by the
    original value string is dropped. *)
Theorem upgradeSecondary_forgets (t v : string) (r : nat) :
  let s := new_Stat t v r in
  (is_Some (property secondaryUpgradeFactors t) \/ t = "Speed") ->
  rolls (upgradeSecondary s) = 1%nat
  /\ displayModifier (upgradeSecondary s)
     = (if endsWith t "%" then "%" else "")
  /\ displayType (upgradeSecondary s) = displayType s
  /\ (endsWith t "%" = false -> isPercent (upgradeSecondary s) = false).
Proof.
  cbv zeta. intros H.
  assert (E : exists x, upgradeSecondary (new_Stat t v r)
                        = new_Stat t (toString x) 1).
  { unfold upgradeSecondary. change (type (new_Stat t v r)) with t.
    destruct (property secondaryUpgradeFactors t) as [f|] eqn:Ef;
      [eexists; reflexivity|].
    destruct H as [[f H] | ->]; [discriminate H|].
    eexists. reflexivity. }
  destruct E as [x ->].
  assert (Hm : displayModifier (new_Stat t (toString x) 1)
               = if endsWith t "%" then "%" else "").
  { change (displayModifier (new_Stat t (toString x) 1))
      with (if endsWith t "%" || endsWith (toString x) "%" then "%" else "").
    rewrite (endsWith_percent_plain _ (toString_plain x)).
    now rewrite orb_false_r. }
  split; [reflexivity|]. split; [exact Hm|]. split; [reflexivity|].
  intros Ht. rewrite isPercent_new_Stat, Hm, Ht. reflexivity.
Qed.

Lemma at_pips_range (table : string) (byPips : list (nat * string))
  (pips : nat) :
  property maxPrimaries table = Some byPips ->
  (is_Some (at_pips byPips pips) <-> (1 <= pips <= 6)%nat).
Proof.
  intros H. apply property_In in H.
  assert (F : forallb (fun kv =>
                forallb (fun p => match at_pips (snd kv) p with
                                  | Some _ => (1 <=? p)%nat && (p <=? 6)%nat
                                  | None => negb ((1 <=? p)%nat && (p <=? 6)%nat)
                                  end)
                  (seq 0 8)) maxPrimaries = true) by reflexivity.
  rewrite forallb_forall in F. specialize (F _ H). cbn [snd] in F.
  rewrite forallb_forall in F.
  destruct (le_lt_dec pips 7) as [Hle|Hgt].
  - specialize (F pips). rewrite in_seq in F. specialize (F ltac:(lia)).
    destruct (at_pips byPips pips).
    + apply andb_true_iff in F as [F1 F2].
      apply Nat.leb_le in F1, F2. split; [lia | eauto].
    + apply negb_true_iff, andb_false_iff in F.
      split; [intros [x Hx]; discriminate Hx|].
      intros [H1 H2]. apply Nat.leb_le in H1, H2.
      destruct F; congruence.
  - split; [|lia]. intros [x Hx]. exfalso.
    assert (G : forallb (fun kv =>
                  forallb (fun k => (fst k <=? 6)%nat) (snd kv))
                  maxPrimaries = true) by reflexivity.
    rewrite forallb_forall in G. specialize (G _ H). cbn [snd] in G.
    rewrite forallb_forall in G.
    clear F H. induction byPips as [|[k a] rest IH]; [discriminate Hx|].
    cbn [at_pips] in Hx. destruct (Nat.eqb pips k) eqn:Ek.
    + apply Nat.eqb_eq in Ek. subst k.
      specialize (G (pips, a) (or_introl eq_refl)). cbn [fst] in G.
      apply Nat.leb_le in G. lia.
    + apply IH; [exact Hx|]. intros y Hy. apply G. now right.
Qed.

(** X10: [upgradePrimary] throws (a TypeError) exactly when the display type
    has maximum values and the pips are outside 1 to 6; it returns the Stat
    itself when the display type has none; otherwise it returns a Stat of the
    same type and display type with one roll, which depends on the type and
    the pips only, so that upgrading twice is upgrading once. *)
Theorem upgradePrimary_spec (t v : string) (r pips : nat) :
  let s := new_Stat t v r in
  ((exists e, upgradePrimary s pips = Throw e)
   <-> (is_Some (property maxPrimaries (displayType s))
        /\ ~ (1 <= pips <= 6)%nat))
  /\ (property maxPrimaries (displayType s) = None ->
      upgradePrimary s pips = Ok s)
  /\ (forall s', upgradePrimary s pips = Ok s' ->
        type s' = t
        /\ displayType s' = displayType s
        /\ upgradePrimary s' pips = Ok s'
        /\ (is_Some (property maxPrimaries (displayType s)) ->
            rolls s' = 1%nat
            /\ forall v' r', upgradePrimary (new_Stat t v' r') pips = Ok s')).
Proof.
  cbv zeta. unfold upgradePrimary at 1 2 3.
  destruct (property maxPrimaries (displayType (new_Stat t v r)))
    as [byPips|] eqn:Et.
  - pose proof (at_pips_range _ _ pips Et) as Hr.
    destruct (at_pips byPips pips) as [x|] eqn:Ex.
    + split; [|split; [discriminate|]].
      * split; [intros [e H]; discriminate H|].
        intros [_ H]. elim H. apply Hr. eauto.
      * intros s' H. injection H as <-.
        change (type (new_Stat t v r)) with t.
        split; [reflexivity|]. split; [reflexivity|].
        assert (U : forall v' r',
                  upgradePrimary (new_Stat t v' r') pips = Ok (new_Stat t x 1)).
        { intros v' r'. unfold upgradePrimary.
          change (displayType (new_Stat t v' r'))
            with (displayType (new_Stat t v r)).
          now rewrite Et, Ex. }
        split; [apply U|]. intros _. split; [reflexivity | exact U].
    + split; [|split; [discriminate | intros s' H; discriminate H]].
      split; [|intros _; eexists; reflexivity].
      intros _. split; [eauto|]. intros H. apply Hr in H as [y Hy].
      discriminate Hy.
  - split; [|split; [reflexivity|]].
    + split; [intros [e H]; discriminate H | intros [[y H] _]; discriminate H].
    + intros s' H. injection H as <-.
      split; [reflexivity|]. split; [reflexivity|].
      split; [unfold upgradePrimary; now rewrite Et|].
      intros [y H]. discriminate H.
Qed.

(** X11: the maximum primary value never decreases with the pips: for a
    display type with maximum values and pips [p <= q] between 1 and 6, the
    upgraded value at [q] is not lower than the upgraded value at [p]. *)
Theorem upgradePrimary_monotone (t v : string) (r p q : nat) (sp sq : Stat) :
  let s := new_Stat t v r in
  is_Some (property maxPrimaries (displayType s)) ->
  (p <= q)%nat ->
  upgradePrimary s p = Ok sp ->
  upgradePrimary s q = Ok sq ->
  ltb (value sq) (value sp) = false.
Proof.
  cbv zeta. intros [byPips Ht] Hpq. unfold upgradePrimary. rewrite Ht.
  pose proof (at_pips_range _ _ p Ht) as Rp.
  pose proof (at_pips_range _ _ q Ht) as Rq.
  destruct (at_pips byPips p) as [x|] eqn:Ex; [|discriminate].
  destruct (at_pips byPips q) as [y|] eqn:Ey; [|discriminate].
  intros H1 H2. injection H1 as <-. injection H2 as <-.
  rewrite !value_new_Stat.
  assert (Hp : (1 <= p <= 6)%nat) by (apply Rp; eauto).
  assert (Hq : (1 <= q <= 6)%nat) by (apply Rq; eauto).
  apply property_In in Ht.
  assert (F : forallb (fun kv =>
                forallb (fun a =>
                  forallb (fun b =>
                    match at_pips (snd kv) a, at_pips (snd kv) b with
                    | Some x, Some y =>
                        (b <? a)%nat
                        || negb (ltb (toNumber (replace_plus_percent y))
                                     (toNumber (replace_plus_percent x)))
                    | _, _ => true
                    end) (seq 1 6)) (seq 1 6)) maxPrimaries = true)
    by (vm_compute; reflexivity).
  rewrite forallb_forall in F. specialize (F _ Ht). cbn [snd] in F.
  rewrite forallb_forall in F. specialize (F p). rewrite in_seq in F.
  specialize (F ltac:(lia)).
  rewrite forallb_forall in F. specialize (F q). rewrite in_seq in F.
  specialize (F ltac:(lia)).
  rewrite Ex, Ey in F. apply orb_true_iff in F as [F | F].
  - apply Nat.ltb_lt in F. lia.
  - now apply negb_true_iff in F.
Qed.

End Upgrades.

(** ** Serializing twice *)

Section SerializeTwice.

Lemma replace_serialized (raw suffix : string) :
  suffix = "%" \/ suffix = "" ->
  replace_plus_percent ("+" +:+ replace_plus_percent raw +:+ suffix)
  = replace_plus_percent raw.
Proof.
  intros H. rewrite !replace_append, replace_idempotent.
  change (replace_plus_percent "+") with "".
  destruct H as [-> | ->].
  - change (replace_plus_percent "%") with "". now rewrite append_empty_r.
  - change (replace_plus_percent "") with "". now rewrite append_empty_r.
Qed.

(** X12: the Stat rebuilt from [serialize] has the display type and the
    percent-ness of the original, and serializes to the same three
    components: serializing is stable under a round trip. *)
Theorem serialize_stable (t v : string) (r : nat) :
  let s := new_Stat t v r in
  let '(t', v', r') := serialize s in
  let s' := new_Stat t' v' r' in
  displayType s' = displayType s
  /\ isPercent s' = isPercent s
  /\ rawValue s' = rawValue s
  /\ serialize s' = serialize s.
Proof.
  cbv zeta. unfold serialize at 1.
  set (s := new_Stat t v r).
  set (P := (isPercent s || negb (includes mixedTypes (displayType s)))
            && negb (includes_percent (type s))).
  set (suffix := if P then "%" else "").
  assert (Hsuf : suffix = "%" \/ suffix = "") by (unfold suffix; destruct P; auto).
  set (s' := new_Stat (type s) ("+" +:+ rawValue s +:+ suffix) (rolls s)).
  assert (Hraw : rawValue s' = rawValue s).
  { apply (replace_serialized v suffix Hsuf). }
  assert (Hends : endsWith ("+" +:+ rawValue s +:+ suffix) "%" = P).
  { rewrite endsWith_serialized;
      [| apply replaced_no_percent | exact Hsuf].
    unfold suffix. now destruct P. }
  assert (Hdt : displayType s' = displayType s) by reflexivity.
  assert (Hp : isPercent s' = isPercent s).
  { unfold s'. change (type s) with t. rewrite isPercent_new_Stat.
    change (displayModifier (new_Stat t ?x ?y))
      with (if endsWith t "%" || endsWith x "%" then "%" else "").
    rewrite Hends.
    change (displayType (new_Stat t _ (rolls s))) with (displayType s).
    unfold P. change (type s) with t.
    assert (Ip : isPercent s
                 = String.eqb "%" (if endsWith t "%" || endsWith v "%"
                                   then "%" else "")
                   && includes mixedTypes (displayType s)) by reflexivity.
    rewrite !Ip.
    change (displayType s)
      with (if endsWith t "%" then trim (drop_last t) else t).
    destruct (endsWith t "%") eqn:A; cbv iota.
    - destruct (includes mixedTypes (trim (drop_last t)));
        destruct (includes_percent t) eqn:I;
        destruct (endsWith v "%");
        try reflexivity;
        apply endsWith_includes in A; congruence.
    - destruct (includes mixedTypes t) eqn:M;
        destruct (includes_percent t) eqn:I;
        destruct (endsWith v "%");
        try reflexivity;
        apply mixed_type_no_percent in M; congruence. }
  split; [exact Hdt|]. split; [exact Hp|]. split; [exact Hraw|].
  unfold serialize. rewrite Hraw, Hp, Hdt. reflexivity.
Qed.

End SerializeTwice.

(** ** Showing a value and reading it back *)

Section ShowValue.




End ShowValue.

(** ** The percent sign, in the type or in the value *)

Section PercentSign.

Lemma of_chars_inj_chars (s : string) (l : list ascii) :
  chars s = l -> s = of_chars l.
Proof. intros <-. symmetry. apply of_chars_chars. Qed.





Lemma drop_spaces_length (l : list ascii) :
  (length (drop_spaces l) <= length l)%nat.
Proof.
  induction l as [|c l IH]; [reflexivity|]. cbn [drop_spaces].
  destruct (is_space c); cbn [length]; lia.
Qed.

Lemma drop_spaces_fixed (l : list ascii) :
  length (drop_spaces l) = length l -> drop_spaces l = l.
Proof.
  destruct l as [|c l]; [reflexivity|]. cbn [drop_spaces].
  destruct (is_space c); [|reflexivity].
  pose proof (drop_spaces_length l). cbn [length]. lia.
Qed.

Lemma trim_fixed (t : string) :
  trim t = t ->
  drop_spaces (chars t) = chars t
  /\ drop_spaces (rev (chars t)) = rev (chars t).
Proof.
  unfold trim. intros H.
  assert (E : rev (drop_spaces (rev (drop_spaces (chars t)))) = chars t).
  { apply (f_equal chars) in H. now rewrite chars_of_chars in H. }
  pose proof (drop_spaces_length (chars t)) as L1.
  pose proof (drop_spaces_length (rev (drop_spaces (chars t)))) as L2.
  apply (f_equal (@length ascii)) in E as EL.
  rewrite length_rev in EL, L2.
  assert (F : drop_spaces (chars t) = chars t)
    by (apply drop_spaces_fixed; lia).
  split; [exact F|]. rewrite F in L2, EL.
  apply drop_spaces_fixed. rewrite length_rev. lia.
Qed.

Lemma trim_append_space (t : string) : trim t = t -> trim (t +:+ " ") = t.
Proof.
  intros H. destruct (trim_fixed t H) as [F1 F2].
  unfold trim. rewrite chars_append.
  change (chars " ") with [" "%char].
  destruct (chars t) as [|c l] eqn:E.
  - cbn. now rewrite (of_chars_inj_chars t _ E).
  - assert (Hc : is_space c = false).
    { cbn [drop_spaces] in F1. destruct (is_space c); [|reflexivity].
      pose proof (drop_spaces_length l) as L. rewrite F1 in L.
      cbn [length] in L. lia. }
    cbn [app drop_spaces]. rewrite Hc.
    change (c :: l ++ [" "%char]) with ((c :: l) ++ [" "%char]).
    rewrite rev_app_distr. cbn [rev app drop_spaces].
    change (is_space " ") with true. cbv iota.
    change (rev l ++ [c]) with (rev (c :: l)).
    rewrite F2, rev_involutive. symmetry. now apply of_chars_inj_chars.
Qed.

Lemma drop_last_space_percent (t : string) :
  drop_last (t +:+ " %") = t +:+ " ".
Proof.
  unfold drop_last. rewrite chars_append.
  change (chars " %") with ([" "%char] ++ ["%"%char]).
  rewrite app_assoc, removelast_last, of_chars_app, of_chars_chars.
  reflexivity.
Qed.

(** X15: the percent sign may be written in the type or in the value: for a
    type without surrounding white space that does not end with a percent
    sign, [new Stat(type + ' %', value)] and [new Stat(type, value + '%')]
    have the same display type, display modifier, percent-ness, raw value and
    value. *)
Theorem percent_in_type_or_value (t v : string) (r : nat) :
  trim t = t ->
  endsWith t "%" = false ->
  let a := new_Stat (t +:+ " %") v r in
  let b := new_Stat t (v +:+ "%") r in
  displayType a = t
  /\ displayType b = t
  /\ displayModifier a = "%" /\ displayModifier b = "%"
  /\ isPercent a = isPercent b
  /\ rawValue a = rawValue b
  /\ value a = value b.
Proof.
  intros Ht He. cbv zeta.
  assert (Ea : endsWith (t +:+ " %") "%" = true).
  { change (t +:+ " %") with (t +:+ (" " +:+ "%")).
    unfold endsWith. rewrite !chars_append, app_assoc, rev_app_distr.
    reflexivity. }
  assert (Da : displayType (new_Stat (t +:+ " %") v r) = t).
  { change (displayType (new_Stat (t +:+ " %") v r))
      with (if endsWith (t +:+ " %") "%"
            then trim (drop_last (t +:+ " %")) else t +:+ " %").
    rewrite Ea, drop_last_space_percent. now apply trim_append_space. }
  assert (Db : displayType (new_Stat t (v +:+ "%") r) = t).
  { change (displayType (new_Stat t (v +:+ "%") r))
      with (if endsWith t "%" then trim (drop_last t) else t).
    now rewrite He. }
  assert (Ma : displayModifier (new_Stat (t +:+ " %") v r) = "%").
  { change (displayModifier (new_Stat (t +:+ " %") v r))
      with (if endsWith (t +:+ " %") "%" || endsWith v "%" then "%" else "").
    now rewrite Ea. }
  assert (Mb : displayModifier (new_Stat t (v +:+ "%") r) = "%").
  { change (displayModifier (new_Stat t (v +:+ "%") r))
      with (if endsWith t "%" || endsWith (v +:+ "%") "%" then "%" else "").
    now rewrite endsWith_append_percent, orb_true_r. }
  assert (R : replace_plus_percent (v +:+ "%") = replace_plus_percent v).
  { rewrite replace_append. change (replace_plus_percent "%") with "".
    apply append_empty_r. }
  repeat split; try assumption.
  - now rewrite !isPercent_new_Stat, Ma, Mb, Da, Db.
  - symmetry. exact R.
  - rewrite !value_new_Stat. now rewrite R.
Qed.

End PercentSign.

(** ** Stats of a swgoh.help response *)

Section SwgohHelp.

Variable modStats : string -> option string.

(** X16: [fromSwgohHelp] throws (a TypeError) exactly when the stat name is
    not in [modStats]; otherwise the Stat has the mapped type, the number of
    the response as its value, its roll count, and a percent sign only
    through its type. *)
Theorem fromSwgohHelp_spec (j : StatJson) :
  ((exists e, fromSwgohHelp modStats j = Throw e)
   <-> modStats (unitStat j) = None)
  /\ (forall s, fromSwgohHelp modStats j = Ok s ->
        modStats (unitStat j) = Some (type s)
        /\ value s = canon (json_value j)
        /\ rolls s = roll j
        /\ displayModifier s = (if endsWith (type s) "%" then "%" else "")).
Proof.
  unfold fromSwgohHelp.
  destruct (modStats (unitStat j)) as [ty|].
  - split.
    + split; [intros [e H]; discriminate H | discriminate].
    + intros s H. injection H as <-.
      split; [reflexivity|]. split.
      * rewrite <- (append_empty_r (toString _)).
        now apply value_of_printed.
      * split; [reflexivity|].
        change (type (new_Stat ty _ _)) with ty.
        change (displayModifier (new_Stat ty ?x ?y))
          with (if endsWith ty "%" || endsWith x "%" then "%" else "").
        rewrite (endsWith_percent_plain _ (toString_plain _)).
        now rewrite orb_false_r.
  - split; [|intros s H; discriminate H].
    split; [reflexivity | intros _; eexists; reflexivity].
Qed.

End SwgohHelp.

(** * Further properties of the character actions *)

Section Selection.

(** Where [splice(k, 0, x)] puts [x]: at [k], or at the end when [k] is past
    it; taking it out again gives back the list. *)
Lemma splice_insert_position {A : Type} (l : list A) (k : nat) (x : A) :
  let l' := snd (splice l k 0 [x]) in
  let pos := Nat.min k (length l) in
  l' !! pos = Some x /\ delete pos l' = l.
Proof.
  cbv zeta. rewrite splice_insert.
  assert (L : length (take k l) = Nat.min k (length l)) by apply length_take.
  rewrite <- L. split.
  - now apply list_lookup_middle.
  - rewrite delete_middle. apply take_drop.
Qed.

Lemma alter_middle {A : Type} (f : A -> A) (l1 l2 : list A) (x : A) :
  alter f (length l1) (l1 ++ x :: l2) = l1 ++ f x :: l2.
Proof.
  rewrite alter_app_r_alt by lia. now rewrite Nat.sub_diag.
Qed.

Lemma selectCharacter_inserts (characterID : string) (target : OptimizationPlan)
  (prevIndex : option nat) (p : PlayerProfile) :
  let p' := selectCharacter characterID target prevIndex p in
  let pos := match prevIndex with
             | None => 0%nat
             | Some i => Nat.min (i + 1) (length (selectedCharacters p))
             end in
  selectedCharacters p' !! pos = Some (mkSelected characterID target)
  /\ delete pos (selectedCharacters p') = selectedCharacters p
  /\ characters p' = characters p
  /\ globalSettings p' = globalSettings p.
Proof.
  cbv zeta. unfold selectCharacter.
  destruct prevIndex as [i|];
    cbn [selectedCharacters characters globalSettings withSelectedCharacters].
  - destruct (splice_insert_position (selectedCharacters p) (i + 1)
                (mkSelected characterID target)) as [H1 H2].
    split; [exact H1|]. split; [exact H2|]. split; reflexivity.
  - repeat split; reflexivity.
Qed.

(** X17: [selectCharacter] puts the new entry just below [prevIndex] (at the
    end when that is past it, on top without a [prevIndex]); the other
    entries keep their order, and nothing else in the profile changes. *)
Theorem selectCharacter_spec (characterID : string) (target : OptimizationPlan)
  (prevIndex : option nat) (p : PlayerProfile) :
  let p' := selectCharacter characterID target prevIndex p in
  let pos := match prevIndex with
             | None => 0%nat
             | Some i => Nat.min (i + 1) (length (selectedCharacters p))
             end in
  selectedCharacters p' !! pos = Some (mkSelected characterID target)
  /\ delete pos (selectedCharacters p') = selectedCharacters p
  /\ length (selectedCharacters p') = S (length (selectedCharacters p))
  /\ characters p' = characters p
  /\ globalSettings p' = globalSettings p.
Proof.
  cbv zeta.
  destruct (selectCharacter_inserts characterID target prevIndex p)
    as (H1 & H2 & H3 & H4).
  split; [exact H1|]. split; [exact H2|].
  split; [|split; [exact H3 | exact H4]].
  pose proof (lookup_lt_Some _ _ _ H1) as Hlt.
  rewrite <- H2. rewrite length_delete by eauto. lia.
Qed.

(** X18: unselecting the entry that [selectCharacter] has just added, for a
    character of the profile, gives back the selected-characters list as it
    was (and leaves that character unlocked). *)
Theorem select_then_unselect (characterID : string) (target : OptimizationPlan)
  (prevIndex : option nat) (p : PlayerProfile) (c : Character) :
  characters p !! characterID = Some c ->
  let pos := match prevIndex with
             | None => 0%nat
             | Some i => Nat.min (i + 1) (length (selectedCharacters p))
             end in
  exists p',
    unselectCharacter pos (selectCharacter characterID target prevIndex p)
    = Ok p'
    /\ selectedCharacters p' = selectedCharacters p
    /\ characters p'
       = <[characterID := withOptimizerSettings c (unlock (optimizerSettings c))]>
           (characters p)
    /\ globalSettings p' = globalSettings p.
Proof.
  intros Hc. cbv zeta.
  destruct (selectCharacter_inserts characterID target prevIndex p)
    as (H1 & H2 & H4 & H5).
  set (q := selectCharacter characterID target prevIndex p) in *.
  set (pos := match prevIndex with
              | None => 0%nat
              | Some i => Nat.min (i + 1) (length (selectedCharacters p))
              end) in *.
  unfold unselectCharacter.
  pose proof (lookup_lt_Some _ _ _ H1) as Hlt.
  apply Nat.ltb_lt in Hlt. rewrite Hlt.
  rewrite (splice_remove _ _ _ H1). cbn [sel_id].
  rewrite H4, Hc, H2.
  eexists. split; [reflexivity|].
  cbn [selectedCharacters characters globalSettings withCharacters
       withSelectedCharacters].
  repeat split. exact H5.
Qed.

(** X19: where [moveSelectedCharacter] puts the moved entry: on top without
    a [toIndex], at [toIndex] when moving down, just below [toIndex] when
    moving up (at the end when that is past it); the other entries keep
    their order. *)
Theorem moveSelectedCharacter_position (p : PlayerProfile)
  (fromIndex : nat) (toIndex : option nat) (entry : SelectedCharacter) :
  selectedCharacters p !! fromIndex = Some entry ->
  Some fromIndex <> toIndex ->
  let rest := delete fromIndex (selectedCharacters p) in
  let pos := match toIndex with
             | None => 0%nat
             | Some j => if (fromIndex <? j)%nat
                         then Nat.min j (length rest)
                         else Nat.min (j + 1) (length rest)
             end in
  exists p',
    moveSelectedCharacter fromIndex toIndex p = Some p'
    /\ selectedCharacters p' !! pos = Some entry
    /\ delete pos (selectedCharacters p') = rest.
Proof.
  intros Hx Hne. cbv zeta. unfold moveSelectedCharacter.
  destruct (decide (Some fromIndex = toIndex)) as [E|_]; [contradiction|].
  rewrite (splice_remove _ _ _ Hx).
  destruct toIndex as [j|].
  - destruct (fromIndex <? j)%nat;
      (eexists; split; [reflexivity|]);
      cbn [selectedCharacters withSelectedCharacters];
      apply splice_insert_position.
  - eexists. split; [reflexivity|]. split; reflexivity.
Qed.

(** X20: [changeCharacterTarget] replaces the target of the entry at the
    position and nothing else: the list is the old one altered at that
    position (unchanged when the position is past the end), so identifiers,
    order and length are kept, and of two changes at one position the last
    one wins. *)
Theorem changeCharacterTarget_spec (i : nat) (t t' : OptimizationPlan)
  (p : PlayerProfile) :
  selectedCharacters (changeCharacterTarget i t p)
  = alter (fun entry => mkSelected (sel_id entry) t) i (selectedCharacters p)
  /\ sel_id <$> selectedCharacters (changeCharacterTarget i t p)
     = sel_id <$> selectedCharacters p
  /\ characters (changeCharacterTarget i t p) = characters p
  /\ globalSettings (changeCharacterTarget i t p) = globalSettings p
  /\ changeCharacterTarget i t' (changeCharacterTarget i t p)
     = changeCharacterTarget i t' p.
Proof.
  assert (S1 : forall t0 q,
    selectedCharacters (changeCharacterTarget i t0 q)
    = alter (fun entry => mkSelected (sel_id entry) t0) i (selectedCharacters q)).
  { intros t0 q. unfold changeCharacterTarget.
    destruct (length (selectedCharacters q) <=? i)%nat eqn:E.
    - apply Nat.leb_le in E. apply list_eq. intros k.
      rewrite list_lookup_alter. destruct (decide (i = k)) as [<-|]; [|reflexivity].
      now rewrite (lookup_ge_None_2 _ _ E).
    - apply Nat.leb_gt in E.
      destruct (lookup_lt_is_Some_2 _ _ E) as [old Hold].
      rewrite (splice_remove _ _ _ Hold).
      cbn [selectedCharacters withSelectedCharacters].
      rewrite splice_insert, delete_take_drop.
      assert (L : length (take i (selectedCharacters q)) = i)
        by (rewrite length_take; lia).
      rewrite (take_app_length' _ _ _ (eq_sym L)).
      rewrite (drop_app_length' _ _ _ (eq_sym L)).
      replace (alter (fun entry => mkSelected (sel_id entry) t0) i
                 (selectedCharacters q))
        with (alter (fun entry => mkSelected (sel_id entry) t0)
                (length (take i (selectedCharacters q)))
                (take i (selectedCharacters q)
                   ++ old :: drop (S i) (selectedCharacters q)))
        by (now rewrite L, (take_drop_middle _ _ _ Hold)).
      now rewrite alter_middle. }
  assert (S2 : forall t0 q,
    characters (changeCharacterTarget i t0 q) = characters q
    /\ globalSettings (changeCharacterTarget i t0 q) = globalSettings q).
  { intros t0 q. unfold changeCharacterTarget.
    destruct (length (selectedCharacters q) <=? i)%nat; [now split|].
    destruct (splice (selectedCharacters q) i 1 []) as [[|old ?] ?];
      now split. }
  split; [apply S1|]. split.
  - rewrite S1. apply list_eq. intros k.
    rewrite !list_lookup_fmap.
    destruct (decide (k = i)) as [->|Hk].
    + rewrite list_lookup_alter_eq.
      now destruct (selectedCharacters p !! i).
    + now rewrite list_lookup_alter_ne by congruence.
  - split; [apply S2|]. split; [apply S2|].
    destruct (changeCharacterTarget i t' (changeCharacterTarget i t p))
      as [cs sel gs] eqn:E1.
    destruct (changeCharacterTarget i t' p) as [cs' sel' gs'] eqn:E2.
    pose proof (S1 t' (changeCharacterTarget i t p)) as A1.
    pose proof (S2 t' (changeCharacterTarget i t p)) as [B1 C1].
    pose proof (S1 t' p) as A2. pose proof (S2 t' p) as [B2 C2].
    pose proof (S2 t p) as [B3 C3].
    rewrite E1 in A1, B1, C1. rewrite E2 in A2, B2, C2.
    cbn [selectedCharacters characters globalSettings] in *.
    f_equal; try congruence.
    rewrite A1, A2, (S1 t p), list_alter_alter_eq.
    reflexivity.
Qed.

End Selection.

(** ** Locks *)

Section Locks.

Variable withTarget : OptimizerSettings -> OptimizationPlan -> OptimizerSettings.

Lemma unlock_unlocked (c : Character) :
  isLocked (optimizerSettings c) = false ->
  withOptimizerSettings c (unlock (optimizerSettings c)) = c.
Proof.
  destruct c as [b pv [tg tgs dots slice locked]]. cbn. now intros ->.
Qed.

Lemma withCharacters_same (p : PlayerProfile) :
  withCharacters p (characters p) = p.
Proof. now destruct p. Qed.

(** X21: [lockCharacter] throws (a TypeError) exactly when the profile has
    no such character; otherwise it locks that character and changes nothing
    else.  Unlocking after locking is the same as unlocking, and gives back
    the profile itself when the character was not locked. *)
Theorem lock_then_unlock (characterID : string) (p : PlayerProfile) :
  ((exists e, lockCharacter characterID p = Throw e)
   <-> characters p !! characterID = None)
  /\ (forall c, characters p !! characterID = Some c ->
        exists locked,
          lockCharacter characterID p = Ok locked
          /\ characters locked !! characterID
             = Some (withOptimizerSettings c (lock (optimizerSettings c)))
          /\ (forall k, k <> characterID ->
                characters locked !! k = characters p !! k)
          /\ selectedCharacters locked = selectedCharacters p
          /\ globalSettings locked = globalSettings p
          /\ unlockCharacter characterID locked = unlockCharacter characterID p
          /\ (isLocked (optimizerSettings c) = false ->
              unlockCharacter characterID locked = Ok p)).
Proof.
  unfold lockCharacter.
  destruct (characters p !! characterID) as [c|] eqn:Hc; cbn [defined bind].
  - split; [split; [intros [e H]; discriminate H | discriminate]|].
    intros c' H. injection H as <-.
    eexists. split; [reflexivity|].
    cbn [characters selectedCharacters globalSettings withCharacters].
    split; [apply lookup_insert_eq|].
    split; [intros k Hk; now apply lookup_insert_ne|].
    split; [reflexivity|]. split; [reflexivity|].
    assert (U : unlockCharacter characterID
                  (withCharacters p
                     (<[characterID := withOptimizerSettings c
                                         (lock (optimizerSettings c))]>
                        (characters p)))
                = unlockCharacter characterID p).
    { unfold unlockCharacter.
      cbn [characters selectedCharacters globalSettings withCharacters].
      rewrite lookup_insert_eq, Hc. cbn [defined bind].
      now rewrite insert_insert_eq. }
    split; [exact U|].
    intros Hl. rewrite U. unfold unlockCharacter. rewrite Hc.
    cbn [defined bind]. rewrite (unlock_unlocked c Hl).
    rewrite insert_id by exact Hc. now rewrite withCharacters_same.
  - split; [split; [reflexivity | intros _; eexists; reflexivity]|].
    intros c H. discriminate H.
Qed.

(** X22: unselecting an entry is unlocking its character and deleting the
    entry: the two actions agree on the characters, and on when they
    throw. *)
Theorem unselectCharacter_is_unlock (i : nat) (p : PlayerProfile)
  (entry : SelectedCharacter) :
  selectedCharacters p !! i = Some entry ->
  unselectCharacter i p
  = (do unlocked <- unlockCharacter (sel_id entry) p;
     Ok (withSelectedCharacters unlocked (delete i (selectedCharacters p)))).
Proof.
  intros Hx. unfold unselectCharacter, unlockCharacter.
  pose proof (lookup_lt_Some _ _ _ Hx) as Hlt.
  apply Nat.ltb_lt in Hlt. rewrite Hlt, (splice_remove _ _ _ Hx).
  destruct (characters p !! sel_id entry); reflexivity.
Qed.

(** X23: [finishEditCharacterTarget] at a position within the list throws (a
    TypeError) exactly when the entry's character is not in the profile;
    otherwise it changes the selected-characters list as
    [changeCharacterTarget] does and stores the character, with the new
    target in its settings, under the character's own [baseID]. *)
Theorem finishEditCharacterTarget_spec (i : nat) (t : OptimizationPlan)
  (p : PlayerProfile) (entry : SelectedCharacter) :
  selectedCharacters p !! i = Some entry ->
  ((exists e, finishEditCharacterTarget withTarget i t p = Throw e)
   <-> characters p !! sel_id entry = None)
  /\ (forall c, characters p !! sel_id entry = Some c ->
        exists p',
          finishEditCharacterTarget withTarget i t p = Ok p'
          /\ selectedCharacters p'
             = selectedCharacters (changeCharacterTarget i t p)
          /\ characters p'
             = <[baseID c := withOptimizerSettings c
                               (withTarget (optimizerSettings c) t)]>
                 (characters p)
          /\ globalSettings p' = globalSettings p).
Proof.
  intros Hx. unfold finishEditCharacterTarget, changeCharacterTarget.
  pose proof (lookup_lt_Some _ _ _ Hx) as Hlt.
  apply Nat.leb_gt in Hlt. rewrite Hlt, (splice_remove _ _ _ Hx).
  destruct (characters p !! sel_id entry) as [c|].
  - split; [split; [intros [e H]; discriminate H | discriminate]|].
    intros c' H. injection H as <-.
    eexists. split; [reflexivity|]. now repeat split.
  - split; [split; [reflexivity | intros _; eexists; reflexivity]|].
    intros c H. discriminate H.
Qed.

End Locks.

(** ** Actions over all characters *)

Section AllCharacters.

Variable mapObject :
  gmap string Character -> (Character -> Character) -> gmap string Character.
Variable groupByKey :
  list SelectedCharacter -> (SelectedCharacter -> string)
  -> gmap string SelectedCharacter.

(** What the two helpers are taken to do: [mapObject] applies the function
    to the value of every key, and [groupByKey] has exactly the keys the key
    function gives on the list. *)
Hypothesis mapObject_lookup : forall m f k, mapObject m f !! k = f <$> m !! k.
Hypothesis groupByKey_keys : forall l f k,
  is_Some (groupByKey l f !! k) <-> exists x, In x l /\ f x = k.

Lemma includes_keys {A : Type} (m : gmap string A) (k : string) :
  includes (keys m) k = true <-> is_Some (m !! k).
Proof.
  unfold includes, keys. rewrite existsb_exists. split.
  - intros (x & Hx & E). apply String.eqb_eq in E. subst x.
    apply in_map_iff in Hx as ([k' a] & <- & Hin).
    apply list_elem_of_In, elem_of_map_to_list in Hin. eauto.
  - intros [a Ha]. exists k. split; [|apply String.eqb_refl].
    apply in_map_iff. exists (k, a). split; [reflexivity|].
    now apply list_elem_of_In, elem_of_map_to_list.
Qed.

(** X24: [unselectAllCharacters] empties the selection and unlocks every
    character: each key keeps its character, with the lock off and nothing
    else changed. *)
Theorem unselectAllCharacters_spec (p : PlayerProfile) :
  let p' := unselectAllCharacters mapObject p in
  selectedCharacters p' = []
  /\ (forall k,
        characters p' !! k
        = (fun c => withOptimizerSettings c (unlock (optimizerSettings c)))
            <$> characters p !! k)
  /\ (forall k c, characters p' !! k = Some c ->
        isLocked (optimizerSettings c) = false)
  /\ globalSettings p' = globalSettings p.
Proof.
  cbv zeta. unfold unselectAllCharacters.
  cbn [selectedCharacters characters globalSettings withCharacters
       withSelectedCharacters].
  split; [reflexivity|]. split; [intros k; apply mapObject_lookup|].
  split; [|reflexivity].
  intros k c. rewrite mapObject_lookup.
  destruct (characters p !! k); [|discriminate].
  cbn. intros H. now injection H as <-.
Qed.

(** X25: [lockSelectedCharacters] locks exactly the characters whose
    [baseID] is the identifier of a selected entry, and
    [unlockSelectedCharacters] unlocks exactly those; every other character,
    the selection and the settings are left as they are. *)
Theorem lock_selected_spec (p : PlayerProfile) (k : string) (c : Character) :
  characters p !! k = Some c ->
  let selected := exists entry,
      In entry (selectedCharacters p) /\ sel_id entry = baseID c in
  (selected ->
   characters (lockSelectedCharacters mapObject groupByKey p) !! k
   = Some (withOptimizerSettings c (lock (optimizerSettings c)))
   /\ characters (unlockSelectedCharacters mapObject groupByKey p) !! k
      = Some (withOptimizerSettings c (unlock (optimizerSettings c))))
  /\ (~ selected ->
      characters (lockSelectedCharacters mapObject groupByKey p) !! k = Some c
      /\ characters (unlockSelectedCharacters mapObject groupByKey p) !! k
         = Some c)
  /\ selectedCharacters (lockSelectedCharacters mapObject groupByKey p)
     = selectedCharacters p
  /\ selectedCharacters (unlockSelectedCharacters mapObject groupByKey p)
     = selectedCharacters p.
Proof.
  intros Hc. cbv zeta.
  unfold lockSelectedCharacters, unlockSelectedCharacters.
  cbn [selectedCharacters characters globalSettings withCharacters].
  rewrite !mapObject_lookup, Hc. cbn [fmap option_fmap option_map].
  pose proof (includes_keys (groupByKey (selectedCharacters p) sel_id)
                (baseID c)) as K.
  rewrite groupByKey_keys in K.
  destruct (includes (keys (groupByKey (selectedCharacters p) sel_id))
              (baseID c)).
  - split; [now split|]. split; [|now split].
    intros H. elim H. now apply K.
  - split; [|split; [now split | now split]].
    intros H. apply K in H. discriminate H.
Qed.

End AllCharacters.

(** ** Resetting and deleting targets *)

Section Targets.

Variable mapObject :
  gmap string Character -> (Character -> Character) -> gmap string Character.
Variable withResetTargets : Character -> Character.
Variable withResetTarget : Character -> string -> Character.
Variable withDeletedTarget : Character -> string -> Character.
Variable character_targets : Character -> list OptimizationPlan.
Variable new_OptimizationPlan : string -> OptimizationPlan.

Lemma find_first_sound {A : Type} (f : A -> bool) (xs : list A) (x : A) :
  find_first f xs = Some x -> In x xs /\ f x = true.
Proof.
  induction xs as [|y xs IH]; [discriminate|]. cbn [find_first].
  destruct (f y) eqn:E.
  - intros H. injection H as <-. split; [now left | exact E].
  - intros H. destruct (IH H). split; [now right | assumption].
Qed.

Lemma map_result_Forall2 {A B : Type} (f : A -> result B) (xs : list A)
  (ys : list B) :
  map_result f xs = Ok ys -> Forall2 (fun x y => f x = Ok y) xs ys.
Proof.
  revert ys. induction xs as [|x xs IH]; intros ys.
  - intros H. injection H as <-. constructor.
  - cbn [map_result]. destruct (f x) as [y|e] eqn:E; [|discriminate].
    cbn [bind]. destruct (map_result f xs) as [ys'|e]; [|discriminate].
    cbn [bind]. intros H. injection H as <-.
    constructor; [exact E | now apply IH].
Qed.

Lemma map_result_throws {A B : Type} (f : A -> result B) (xs : list A) :
  (exists e, map_result f xs = Throw e)
  <-> exists x e, In x xs /\ f x = Throw e.
Proof.
  induction xs as [|x xs IH].
  - split; [intros [e H]; discriminate H | intros (x & e & [] & _)].
  - cbn [map_result]. destruct (f x) as [y|e] eqn:E; cbn [bind].
    + destruct (map_result f xs) as [ys|e'] eqn:M; cbn [bind].
      * split; [intros [e H]; discriminate H|].
        intros (x' & e & [<- | Hin] & Hx); [congruence|].
        destruct (proj2 IH) as [e' H']; [eauto | discriminate H'].
      * split; [|intros _; eauto].
        intros _. destruct (proj1 IH) as (x' & e & Hin & Hx); [eauto|].
        exists x', e. split; [now right | exact Hx].
    + split; [|intros _; eauto].
      intros _. exists x, e. split; [now left | exact E].
Qed.

(** X26: [resetAllCharacterTargets] throws (a TypeError) exactly when a
    selected entry names a character that is not among the reset characters;
    otherwise it keeps the identifier and the target name of every selected
    entry, in order, and every entry's target is either its old target or a
    target of that name of the reset character. *)
Theorem resetAllCharacterTargets_spec (p : PlayerProfile) :
  let newCharacters := mapObject (characters p) withResetTargets in
  ((exists e, resetAllCharacterTargets mapObject withResetTargets p = Throw e)
   <-> exists entry, In entry (selectedCharacters p)
                     /\ newCharacters !! sel_id entry = None)
  /\ (forall p', resetAllCharacterTargets mapObject withResetTargets p = Ok p' ->
        characters p' = newCharacters
        /\ Forall2 (fun old new =>
                      sel_id new = sel_id old
                      /\ name (sel_target new) = name (sel_target old)
                      /\ (sel_target new = sel_target old
                          \/ exists c, newCharacters !! sel_id old = Some c
                               /\ In (sel_target new)
                                    (targets (optimizerSettings c))))
             (selectedCharacters p) (selectedCharacters p')).
Proof.
  cbv zeta. unfold resetAllCharacterTargets.
  set (newCharacters := mapObject (characters p) withResetTargets).
  set (f := fun entry : SelectedCharacter =>
              do character <- defined (newCharacters !! sel_id entry);
              match find_first (fun target =>
                                  String.eqb (name target)
                                    (name (sel_target entry)))
                      (targets (optimizerSettings character)) with
              | Some target => Ok (mkSelected (sel_id entry) target)
              | None => Ok (mkSelected (sel_id entry) (sel_target entry))
              end).
  assert (Hf : forall entry e, f entry = Throw e ->
                               newCharacters !! sel_id entry = None).
  { intros entry e. unfold f.
    destruct (newCharacters !! sel_id entry); [|reflexivity].
    cbn [defined bind]. now destruct (find_first _ _). }
  split.
  - destruct (map_result f (selectedCharacters p)) as [ys|e] eqn:M;
      cbn [bind].
    + split; [intros [e H]; discriminate H|].
      intros (entry & Hin & Hn).
      assert (T : exists e, map_result f (selectedCharacters p) = Throw e).
      { apply map_result_throws. exists entry, TypeError.
        split; [exact Hin|]. unfold f. now rewrite Hn. }
      destruct T as [e T]. congruence.
    + split; [|intros _; eauto].
      intros _.
      destruct (proj1 (map_result_throws f (selectedCharacters p)))
        as (entry & e' & Hin & Hx); [eauto|].
      exists entry. split; [exact Hin | now apply (Hf entry e')].
  - intros p'.
    destruct (map_result f (selectedCharacters p)) as [ys|e] eqn:M;
      cbn [bind]; [|discriminate].
    intros H. injection H as <-.
    cbn [selectedCharacters characters withCharacters withSelectedCharacters].
    split; [reflexivity|].
    apply map_result_Forall2 in M.
    eapply Forall2_impl; [exact M|].
    intros old new. unfold f.
    destruct (newCharacters !! sel_id old) as [c|]; [|discriminate].
    cbn [defined bind].
    destruct (find_first _ _) as [target|] eqn:F.
    + intros H. injection H as <-. cbn [sel_id sel_target].
      apply find_first_sound in F as [Hin Hn]. apply String.eqb_eq in Hn.
      split; [reflexivity|]. split; [exact Hn|]. right. eauto.
    + intros H. injection H as <-. cbn [sel_id sel_target]. auto.
Qed.

(** X27: [deleteTarget] throws (a TypeError) exactly when the profile has no
    such character; otherwise it stores the character without the target and
    gives every selected entry of that character with that target name the
    first remaining target of the character (a fresh plan named "unnamed"
    when none remains), leaving every other entry, the order and the
    identifiers as they are. *)
Theorem deleteTarget_spec (characterID targetName : string)
  (p : PlayerProfile) :
  ((exists e, deleteTarget withDeletedTarget character_targets
                new_OptimizationPlan characterID targetName p = Throw e)
   <-> characters p !! characterID = None)
  /\ (forall c, characters p !! characterID = Some c ->
        let newCharacter := withDeletedTarget c targetName in
        let newTarget := match character_targets newCharacter with
                         | first :: _ => first
                         | [] => new_OptimizationPlan "unnamed"
                         end in
        exists p',
          deleteTarget withDeletedTarget character_targets
            new_OptimizationPlan characterID targetName p = Ok p'
          /\ characters p' = <[characterID := newCharacter]> (characters p)
          /\ sel_id <$> selectedCharacters p' = sel_id <$> selectedCharacters p
          /\ (forall i entry, selectedCharacters p !! i = Some entry ->
                selectedCharacters p' !! i
                = Some (if String.eqb (sel_id entry) characterID
                           && String.eqb (name (sel_target entry)) targetName
                        then mkSelected characterID newTarget
                        else entry))).
Proof.
  unfold deleteTarget.
  destruct (characters p !! characterID) as [c|] eqn:Hc; cbn [defined bind].
  - assert (M : forall xs,
      map_result (fun entry =>
        if String.eqb (sel_id entry) characterID
           && String.eqb (name (sel_target entry)) targetName
        then
          do character <- defined
            (<[characterID := withDeletedTarget c targetName]> (characters p)
               !! characterID);
          Ok (mkSelected (sel_id entry)
                match character_targets character with
                | first :: _ => first
                | [] => new_OptimizationPlan "unnamed"
                end)
        else Ok (mkSelected (sel_id entry) (sel_target entry))) xs
      = Ok (map (fun entry =>
                   if String.eqb (sel_id entry) characterID
                      && String.eqb (name (sel_target entry)) targetName
                   then mkSelected (sel_id entry)
                          match character_targets
                                  (withDeletedTarget c targetName) with
                          | first :: _ => first
                          | [] => new_OptimizationPlan "unnamed"
                          end
                   else mkSelected (sel_id entry) (sel_target entry)) xs)).
    { intros xs. apply map_result_ok. intros entry.
      rewrite lookup_insert_eq. cbn [defined bind].
      now destruct (_ && _). }
    rewrite M. cbn [bind].
    split; [split; [intros [e H]; discriminate H | discriminate]|].
    intros c' H. injection H as <-. cbv zeta.
    eexists. split; [reflexivity|].
    cbn [selectedCharacters characters withCharacters withSelectedCharacters].
    split; [reflexivity|]. split.
    + change (@map) with (@fmap list _).
      rewrite <- list_fmap_compose. apply list_fmap_ext.
      intros i entry _. cbn. now destruct (_ && _).
    + intros i entry Hx. change (@map) with (@fmap list _).
      rewrite list_lookup_fmap, Hx. cbn. f_equal.
      destruct (String.eqb (sel_id entry) characterID) eqn:E; cbn [andb].
      * apply String.eqb_eq in E. destruct entry as [id target].
        cbn [sel_id sel_target] in E |- *. rewrite E.
        now destruct (String.eqb (name target) targetName).
      * now destruct entry.
  - split; [split; [reflexivity | intros _; eexists; reflexivity]|].
    intros c H. discriminate H.
Qed.

(** X28: [resetCharacterTargetToDefault] throws (a TypeError) exactly when
    the profile has no such character; otherwise it stores the character with
    that target reset and gives every selected entry of that character with
    that target name the reset target of that name (a fresh plan named
    "unnamed" when the character has none), leaving every other entry, the
    order and the identifiers as they are. *)
Theorem resetCharacterTargetToDefault_spec (characterID targetName : string)
  (p : PlayerProfile) :
  ((exists e, resetCharacterTargetToDefault withResetTarget
                new_OptimizationPlan characterID targetName p = Throw e)
   <-> characters p !! characterID = None)
  /\ (forall c, characters p !! characterID = Some c ->
        let newCharacter := withResetTarget c targetName in
        exists p' resetTarget,
          resetCharacterTargetToDefault withResetTarget
            new_OptimizationPlan characterID targetName p = Ok p'
          /\ ((In resetTarget (targets (optimizerSettings newCharacter))
               /\ name resetTarget = targetName)
              \/ ((forall target,
                     In target (targets (optimizerSettings newCharacter)) ->
                     name target <> targetName)
                  /\ resetTarget = new_OptimizationPlan "unnamed"))
          /\ characters p' = <[characterID := newCharacter]> (characters p)
          /\ sel_id <$> selectedCharacters p' = sel_id <$> selectedCharacters p
          /\ (forall i entry, selectedCharacters p !! i = Some entry ->
                selectedCharacters p' !! i
                = Some (if String.eqb (sel_id entry) characterID
                           && String.eqb (name (sel_target entry)) targetName
                        then mkSelected characterID resetTarget
                        else entry))).
Proof.
  unfold resetCharacterTargetToDefault.
  destruct (characters p !! characterID) as [c|] eqn:Hc; cbn [defined bind].
  - split; [split; [intros [e H]; discriminate H | discriminate]|].
    intros c' H. injection H as <-. cbv zeta.
    eexists.
    exists (match find_first (fun target => String.eqb (name target) targetName)
                    (targets (optimizerSettings
                                (withResetTarget c targetName))) with
            | Some target => target
            | None => new_OptimizationPlan "unnamed"
            end).
    split; [reflexivity|].
    cbn [selectedCharacters characters withCharacters withSelectedCharacters].
    split.
    + destruct (find_first _ _) as [target|] eqn:F.
      * left. apply find_first_sound in F as [Hin Hn].
        apply String.eqb_eq in Hn. now split.
      * right. split; [|reflexivity].
        intros target Hin Hn.
        clear -F Hin Hn.
        induction (targets (optimizerSettings (withResetTarget c targetName)))
          as [|y ys IH]; [contradiction|].
        cbn [find_first] in F.
        destruct (String.eqb (name y) targetName) eqn:E; [discriminate|].
        destruct Hin as [-> | Hin]; [|now apply IH].
        apply String.eqb_neq in E. contradiction.
    + split; [reflexivity|]. split.
      * change (@map) with (@fmap list _).
        rewrite <- list_fmap_compose. apply list_fmap_ext.
        intros i entry _. cbn. now destruct (_ && _).
      * intros i entry Hx. change (@map) with (@fmap list _).
        rewrite list_lookup_fmap, Hx. cbn. f_equal.
        destruct (String.eqb (sel_id entry) characterID) eqn:E; cbn [andb].
        -- apply String.eqb_eq in E. destruct entry as [id target].
           cbn [sel_id sel_target] in E |- *. rewrite E.
           now destruct (String.eqb (name target) targetName).
        -- now destruct entry.
  - split; [split; [reflexivity | intros _; eexists; reflexivity]|].
    intros c H. discriminate H.
Qed.

End Targets.

(** ** Loading the stored profiles *)

Section StorageFacts.

Variable Profile : Type.
Variable allyCode : Profile -> string.
Variable playerName : Profile -> string.

Lemma find_from_first {A : Type} (f : A -> bool) (xs : list A) (start : nat) :
  find_from (fun x _ => f x) start xs = find_first f xs.
Proof.
  revert start. induction xs as [|x xs IH]; intros start; [reflexivity|].
  cbn [find_from find_first]. now rewrite IH.
Qed.

Lemma find_first_earliest {A : Type} (f : A -> bool) (xs : list A) :
  match find_first f xs with
  | Some x => exists i, xs !! i = Some x /\ f x = true
                        /\ forall j y, (j < i)%nat -> xs !! j = Some y ->
                                       f y = false
  | None => forall y, In y xs -> f y = false
  end.
Proof.
  induction xs as [|x xs IH]; cbn [find_first].
  - intros y [].
  - destruct (f x) eqn:E.
    + exists 0%nat. split; [reflexivity|]. split; [exact E|]. intros j y Hj. lia.
    + destruct (find_first f xs) as [z|].
      * destruct IH as (i & Hi & Hz & Hbefore). exists (S i).
        split; [exact Hi|]. split; [exact Hz|].
        intros [|j] y Hj Hy.
        -- cbn in Hy. congruence.
        -- apply (Hbefore j); [lia | exact Hy].
      * intros y [<- | Hin]; [exact E | now apply IH].
Qed.

Lemma fold_insert_lookup (profiles : list Profile) (m : gmap string string)
  (k : string) :
  fold_left (fun acc profile => <[allyCode profile := playerName profile]> acc)
    profiles m !! k
  = match last (filter (fun profile => String.eqb (allyCode profile) k)
                  profiles) with
    | Some profile => Some (playerName profile)
    | None => m !! k
    end.
Proof.
  revert m. induction profiles as [|x xs IH]; intros m; [reflexivity|].
  cbn [fold_left]. rewrite IH.
  rewrite filter_cons.
  destruct (decide (String.eqb (allyCode x) k)) as [E|E].
  - rewrite last_cons.
    destruct (last (filter _ xs)); [reflexivity|].
    apply Is_true_true, String.eqb_eq in E. rewrite <- E.
    apply lookup_insert_eq.
  - destruct (last (filter _ xs)); [reflexivity|].
    apply lookup_insert_ne. intros Heq. apply E, Is_true_true.
    now apply String.eqb_eq.
Qed.

(** X29: the first action the callback of [loadProfiles] dispatches sets the
    active profile: for a non-empty ally code it is the earliest stored
    profile carrying that ally code, and undefined when no stored profile
    carries it; for an empty or undefined ally code it is the first stored
    profile, and undefined when nothing is stored. *)
Theorem loadProfiles_active (code : option string) (profiles : list Profile) :
  exists active rest,
    loadProfiles_loaded Profile allyCode playerName code profiles
    = setProfile active :: rest
    /\ match code with
       | Some (String a s) =>
           match active with
           | Some profile =>
               exists i, profiles !! i = Some profile
                 /\ allyCode profile = String a s
                 /\ forall j other, (j < i)%nat -> profiles !! j = Some other ->
                                    allyCode other <> String a s
           | None => forall other, In other profiles ->
                                   allyCode other <> String a s
           end
       | _ => active = head profiles
       end.
Proof.
  unfold loadProfiles_loaded. eexists. eexists. split; [reflexivity|].
  destruct code as [[|a s]|]; cbn [truthy String.eqb negb].
  - now destruct profiles.
  - rewrite find_from_first.
    pose proof (find_first_earliest
                  (fun profile => String.eqb (allyCode profile) (String a s))
                  profiles) as H.
    cbv beta in H. destruct (find_first _ profiles) as [profile|].
    + destruct H as (i & Hi & Hp & Hbefore). exists i.
      split; [exact Hi|]. split; [now apply String.eqb_eq|].
      intros j other Hj Ho. apply String.eqb_neq. now apply (Hbefore j).
    + intros other Hin. apply String.eqb_neq. now apply H.
  - now destruct profiles.
Qed.

(** X30: the second and last action the callback of [loadProfiles] dispatches
    sets the table of player profiles, which maps every stored ally code, and
    nothing else, to the player name of the last stored profile carrying
    it. *)
Theorem loadProfiles_playerProfiles (code : option string)
  (profiles : list Profile) :
  exists first table,
    loadProfiles_loaded Profile allyCode playerName code profiles
    = [first; setPlayerProfiles table]
    /\ forall k,
         table !! k
         = playerName
             <$> last (filter (fun profile => String.eqb (allyCode profile) k)
                         profiles).
Proof.
  unfold loadProfiles_loaded. eexists. eexists. split; [reflexivity|].
  intros k. rewrite fold_insert_lookup.
  now destruct (last _).
Qed.

End StorageFacts.

(** * Instances of the further properties *)


Lemma plus_keeps_kind_witness :
  let this := new_Stat "Speed" "10" 3 in
  let sum_stat := new_Stat "Speed" "14" 1 in
  plus this (IsStat (new_Stat "Speed" "4" 2)) = Ok sum_stat
  /\ displayModifier sum_stat = displayModifier this
  /\ displayType sum_stat = displayType this
  /\ isPercent sum_stat = isPercent this
  /\ rolls sum_stat = 1%nat
  /\ exists again, plus sum_stat (IsStat this) = Ok again.
Proof.
  cbv zeta.
  assert (H : plus (new_Stat "Speed" "10" 3) (IsStat (new_Stat "Speed" "4" 2))
              = Ok (new_Stat "Speed" "14" 1)) by (vm_compute; reflexivity).
  split; [exact H|].
  exact (plus_keeps_kind "Speed" "10" 3 _ _ H).
Defined.

Lemma minus_keeps_kind_witness :
  let this := new_Stat "Offense %" "1.5" 3 in
  let diff_stat := new_Stat "Offense %" "1.25%" 1 in
  minus this (IsStat (new_Stat "Offense %" "0.25" 2)) = Ok diff_stat
  /\ displayModifier diff_stat = displayModifier this
  /\ displayType diff_stat = displayType this
  /\ isPercent diff_stat = isPercent this.
Proof.
  cbv zeta.
  assert (H : minus (new_Stat "Offense %" "1.5" 3)
                (IsStat (new_Stat "Offense %" "0.25" 2))
              = Ok (new_Stat "Offense %" "1.25%" 1))
    by (vm_compute; reflexivity).
  split; [exact H|].
  exact (minus_keeps_kind "Offense %" "1.5" 3 _ _ H).
Defined.

Lemma plus_value_comm_witness :
  let a := new_Stat "Health" "1.5%" 1 in
  let b := new_Stat "Health %" "2" 3 in
  let ab := new_Stat "Health" "3.5%" 1 in
  plus a (IsStat b) = Ok ab
  /\ exists ba, plus b (IsStat a) = Ok ba /\ value ba = value ab.
Proof.
  cbv zeta.
  assert (H : plus (new_Stat "Health" "1.5%" 1)
                (IsStat (new_Stat "Health %" "2" 3))
              = Ok (new_Stat "Health" "3.5%" 1)) by (vm_compute; reflexivity).
  split; [exact H|].
  exact (plus_value_comm "Health" "1.5%" "Health %" "2" 1 3 _ H).
Defined.




Lemma getOptimizationValue_throws_witness :
  let s := new_Stat "Health" "1.5%" 1 in
  (displayType s <> "Special Critical Chance"
   /\ ((displayType s <> "Physical Critical Chance"
        /\ sampleStatTypeMap (displayType s) = None)
       \/ (isPercent s = true
           /\ baseStats (playerValues novice) = None
           /\ (displayType s = "Physical Critical Chance"
               \/ exists ts, sampleStatTypeMap (displayType s) = Some ts
                             /\ ts <> []))))
  /\ getOptimizationValue sampleStatTypeMap s novice = Throw TypeError.
Proof.
  cbv zeta.
  assert (H : getOptimizationValue sampleStatTypeMap
                (new_Stat "Health" "1.5%" 1) novice = Throw TypeError)
    by (vm_compute; reflexivity).
  split; [|exact H].
  apply (proj1 (getOptimizationValue_throws sampleStatTypeMap
                  (new_Stat "Health" "1.5%" 1) novice)).
  exists TypeError. exact H.
Defined.

Lemma upgradeSecondary_forgets_witness :
  let s := new_Stat "Speed" "5%" 2 in
  (is_Some (property secondaryUpgradeFactors "Speed") \/ "Speed" = "Speed")
  /\ rolls (upgradeSecondary s) = 1%nat
  /\ displayModifier (upgradeSecondary s)
     = (if endsWith "Speed" "%" then "%" else "")
  /\ displayType (upgradeSecondary s) = displayType s
  /\ (endsWith "Speed" "%" = false -> isPercent (upgradeSecondary s) = false).
Proof.
  cbv zeta.
  assert (H : is_Some (property secondaryUpgradeFactors "Speed")
              \/ "Speed" = "Speed") by (right; reflexivity).
  split; [exact H|].
  exact (upgradeSecondary_forgets "Speed" "5%" 2 H).
Defined.

Lemma upgradePrimary_spec_witness :
  let s := new_Stat "Speed" "5" 2 in
  let s' := new_Stat "Speed" "32" 1 in
  upgradePrimary s 6 = Ok s'
  /\ is_Some (property maxPrimaries (displayType s))
  /\ type s' = "Speed"
  /\ displayType s' = displayType s
  /\ upgradePrimary s' 6 = Ok s'
  /\ rolls s' = 1%nat
  /\ forall v' r', upgradePrimary (new_Stat "Speed" v' r') 6 = Ok s'.
Proof.
  cbv zeta.
  assert (H : upgradePrimary (new_Stat "Speed" "5" 2) 6
              = Ok (new_Stat "Speed" "32" 1)) by (vm_compute; reflexivity).
  assert (M : is_Some (property maxPrimaries
                         (displayType (new_Stat "Speed" "5" 2))))
    by (vm_compute; eauto).
  split; [exact H|]. split; [exact M|].
  destruct (proj2 (proj2 (upgradePrimary_spec "Speed" "5" 2 6)) _ H)
    as (H1 & H2 & H3 & H4).
  destruct (H4 M) as [H5 H6].
  split; [exact H1|]. split; [exact H2|]. split; [exact H3|].
  split; [exact H5 | exact H6].
Defined.

Lemma upgradePrimary_monotone_witness :
  let s := new_Stat "Health %" "1" 2 in
  let sp := new_Stat "Health %" "2%" 1 in
  let sq := new_Stat "Health %" "16%" 1 in
  is_Some (property maxPrimaries (displayType s))
  /\ (2 <= 6)%nat
  /\ upgradePrimary s 2 = Ok sp
  /\ upgradePrimary s 6 = Ok sq
  /\ ltb (value sq) (value sp) = false.
Proof.
  cbv zeta.
  assert (M : is_Some (property maxPrimaries
                         (displayType (new_Stat "Health %" "1" 2))))
    by (vm_compute; eauto).
  assert (L : (2 <= 6)%nat) by lia.
  assert (P : upgradePrimary (new_Stat "Health %" "1" 2) 2
              = Ok (new_Stat "Health %" "2%" 1)) by (vm_compute; reflexivity).
  assert (Q : upgradePrimary (new_Stat "Health %" "1" 2) 6
              = Ok (new_Stat "Health %" "16%" 1)) by (vm_compute; reflexivity).
  split; [exact M|]. split; [exact L|]. split; [exact P|]. split; [exact Q|].
  exact (upgradePrimary_monotone "Health %" "1" 2 2 6 _ _ M L P Q).
Defined.


Lemma percent_in_type_or_value_witness :
  let a := new_Stat ("Health" +:+ " %") "1.5" 2 in
  let b := new_Stat "Health" ("1.5" +:+ "%") 2 in
  trim "Health" = "Health"
  /\ endsWith "Health" "%" = false
  /\ displayType a = "Health"
  /\ displayType b = "Health"
  /\ displayModifier a = "%" /\ displayModifier b = "%"
  /\ isPercent a = isPercent b
  /\ rawValue a = rawValue b
  /\ value a = value b.
Proof.
  cbv zeta.
  assert (T : trim "Health" = "Health") by (vm_compute; reflexivity).
  assert (E : endsWith "Health" "%" = false) by (vm_compute; reflexivity).
  split; [exact T|]. split; [exact E|].
  exact (percent_in_type_or_value "Health" "1.5" 2 T E).
Defined.

Lemma fromSwgohHelp_spec_witness :
  let j := mkStatJson "UNITSTATSPEED" (of_Z 5) 3 in
  let s := new_Stat "Speed" "5" 3 in
  fromSwgohHelp sampleModStats j = Ok s
  /\ sampleModStats (unitStat j) = Some (type s)
  /\ value s = canon (json_value j)
  /\ rolls s = roll j
  /\ displayModifier s = (if endsWith (type s) "%" then "%" else "").
Proof.
  cbv zeta.
  assert (H : fromSwgohHelp sampleModStats (mkStatJson "UNITSTATSPEED" (of_Z 5) 3)
              = Ok (new_Stat "Speed" "5" 3)) by (vm_compute; reflexivity).
  split; [exact H|].
  exact (proj2 (fromSwgohHelp_spec sampleModStats
                  (mkStatJson "UNITSTATSPEED" (of_Z 5) 3)) _ H).
Defined.

(** ** The character actions *)

Lemma sampleMapObject_lookup (m : gmap string Character)
  (f : Character -> Character) (k : string) :
  sampleMapObject m f !! k = f <$> m !! k.
Proof. apply lookup_fmap. Qed.

Lemma sampleGroupByKey_keys (l : list SelectedCharacter)
  (f : SelectedCharacter -> string) (k : string) :
  is_Some (sampleGroupByKey l f !! k) <-> exists x, In x l /\ f x = k.
Proof.
  unfold sampleGroupByKey.
  rewrite <- not_eq_None_Some, <- not_elem_of_list_to_map.
  induction l as [|y l IH]; cbn [map fmap list_fmap fst].
  - split; [intros H; exfalso; apply H; intros E; inversion E|].
    intros (x & [] & _).
  - split.
    + intros H. destruct (decide (f y = k)) as [E|E].
      * exists y. split; [now left | exact E].
      * destruct (proj1 IH) as (x & Hin & Hx).
        { intros Hn. apply H. intros Hk. apply elem_of_cons in Hk.
          destruct Hk as [Hk | Hk]; [now apply E | now apply Hn]. }
        exists x. split; [now right | exact Hx].
    + intros (x & [<- | Hin] & Hx) Hn.
      * apply Hn. rewrite <- Hx. apply elem_of_cons. now left.
      * apply (proj2 IH); [eauto|].
        intros Hk. apply Hn. apply elem_of_cons. now right.
Qed.

Lemma select_then_unselect_witness :
  characters heroProfile !! "NOVICE" = Some novice
  /\ exists p',
       unselectCharacter (Nat.min (0 + 1) (length (selectedCharacters heroProfile)))
         (selectCharacter "NOVICE" heroPlan (Some 0%nat) heroProfile)
       = Ok p'
       /\ selectedCharacters p' = selectedCharacters heroProfile
       /\ characters p'
          = <["NOVICE" := withOptimizerSettings novice
                            (unlock (optimizerSettings novice))]>
              (characters heroProfile)
       /\ globalSettings p' = globalSettings heroProfile.
Proof.
  assert (H : characters heroProfile !! "NOVICE" = Some novice)
    by (vm_compute; reflexivity).
  split; [exact H|].
  exact (select_then_unselect "NOVICE" heroPlan (Some 0%nat) heroProfile
           novice H).
Defined.

Lemma moveSelectedCharacter_position_witness :
  let entry := mkSelected "HERO" heroPlan in
  let rest := delete 0%nat (selectedCharacters heroProfile) in
  selectedCharacters heroProfile !! 0%nat = Some entry
  /\ Some 0%nat <> Some 2%nat
  /\ exists p',
       moveSelectedCharacter 0 (Some 2%nat) heroProfile = Some p'
       /\ selectedCharacters p' !! Nat.min 2 (length rest) = Some entry
       /\ delete (Nat.min 2 (length rest)) (selectedCharacters p') = rest.
Proof.
  cbv zeta.
  assert (H : selectedCharacters heroProfile !! 0%nat
              = Some (mkSelected "HERO" heroPlan)) by reflexivity.
  assert (N : Some 0%nat <> Some 2%nat) by discriminate.
  split; [exact H|]. split; [exact N|].
  exact (moveSelectedCharacter_position heroProfile 0 (Some 2%nat) _ H N).
Defined.

Lemma lock_then_unlock_witness :
  let free := withOptimizerSettings hero (unlock (optimizerSettings hero)) in
  let p := sampleProfile [free; novice] [mkSelected "HERO" heroPlan] in
  characters p !! "HERO" = Some free
  /\ isLocked (optimizerSettings free) = false
  /\ exists locked,
       lockCharacter "HERO" p = Ok locked
       /\ characters locked !! "HERO"
          = Some (withOptimizerSettings free (lock (optimizerSettings free)))
       /\ selectedCharacters locked = selectedCharacters p
       /\ unlockCharacter "HERO" locked = Ok p.
Proof.
  cbv zeta.
  set (free := withOptimizerSettings hero (unlock (optimizerSettings hero))).
  set (p := sampleProfile [free; novice] [mkSelected "HERO" heroPlan]).
  assert (H : characters p !! "HERO" = Some free)
    by (vm_compute; reflexivity).
  assert (L : isLocked (optimizerSettings free) = false) by reflexivity.
  split; [exact H|]. split; [exact L|].
  destruct (proj2 (lock_then_unlock "HERO" p) free H)
    as (locked & H1 & H2 & _ & H4 & _ & _ & H7).
  exists locked. split; [exact H1|]. split; [exact H2|].
  split; [exact H4 | exact (H7 L)].
Defined.

Lemma unselectCharacter_is_unlock_witness :
  selectedCharacters heroProfile !! 1%nat = Some (mkSelected "NOVICE" heroPlan)
  /\ unselectCharacter 1 heroProfile
     = (do unlocked <- unlockCharacter "NOVICE" heroProfile;
        Ok (withSelectedCharacters unlocked
              (delete 1%nat (selectedCharacters heroProfile)))).
Proof.
  assert (H : selectedCharacters heroProfile !! 1%nat
              = Some (mkSelected "NOVICE" heroPlan)) by reflexivity.
  split; [exact H|].
  exact (unselectCharacter_is_unlock 1 heroProfile _ H).
Defined.

Lemma finishEditCharacterTarget_spec_witness :
  let withTarget := fun (o : OptimizerSettings) (t : OptimizationPlan) =>
                      mkSettings t (targets o) (minimumModDots o)
                        (sliceMods o) (isLocked o) in
  selectedCharacters heroProfile !! 1%nat = Some (mkSelected "NOVICE" heroPlan)
  /\ characters heroProfile !! "NOVICE" = Some novice
  /\ exists p',
       finishEditCharacterTarget withTarget 1 (samplePlan [] []) heroProfile
       = Ok p'
       /\ selectedCharacters p'
          = selectedCharacters
              (changeCharacterTarget 1 (samplePlan [] []) heroProfile)
       /\ characters p'
          = <[baseID novice
              := withOptimizerSettings novice
                   (withTarget (optimizerSettings novice) (samplePlan [] []))]>
              (characters heroProfile)
       /\ globalSettings p' = globalSettings heroProfile.
Proof.
  cbv zeta.
  assert (H : selectedCharacters heroProfile !! 1%nat
              = Some (mkSelected "NOVICE" heroPlan)) by reflexivity.
  assert (C : characters heroProfile !! "NOVICE" = Some novice)
    by (vm_compute; reflexivity).
  split; [exact H|]. split; [exact C|].
  exact (proj2 (finishEditCharacterTarget_spec
                  (fun o t => mkSettings t (targets o) (minimumModDots o)
                                (sliceMods o) (isLocked o))
                  1 (samplePlan [] []) heroProfile _ H) novice C).
Defined.

Lemma unselectAllCharacters_spec_witness :
  let p' := unselectAllCharacters sampleMapObject heroProfile in
  (forall m f k, sampleMapObject m f !! k = f <$> m !! k)
  /\ selectedCharacters p' = []
  /\ (forall k,
        characters p' !! k
        = (fun c => withOptimizerSettings c (unlock (optimizerSettings c)))
            <$> characters heroProfile !! k)
  /\ (forall k c, characters p' !! k = Some c ->
        isLocked (optimizerSettings c) = false)
  /\ globalSettings p' = globalSettings heroProfile.
Proof.
  cbv zeta. split; [exact sampleMapObject_lookup|].
  exact (unselectAllCharacters_spec sampleMapObject sampleMapObject_lookup
           heroProfile).
Defined.

Lemma lock_selected_spec_witness :
  characters heroProfile !! "HERO" = Some hero
  /\ (exists entry,
        In entry (selectedCharacters heroProfile) /\ sel_id entry = baseID hero)
  /\ characters (lockSelectedCharacters sampleMapObject sampleGroupByKey
                   heroProfile) !! "HERO"
     = Some (withOptimizerSettings hero (lock (optimizerSettings hero)))
  /\ characters (unlockSelectedCharacters sampleMapObject sampleGroupByKey
                   heroProfile) !! "HERO"
     = Some (withOptimizerSettings hero (unlock (optimizerSettings hero))).
Proof.
  assert (H : characters heroProfile !! "HERO" = Some hero)
    by (vm_compute; reflexivity).
  assert (S : exists entry,
             In entry (selectedCharacters heroProfile)
             /\ sel_id entry = baseID hero).
  { exists (mkSelected "HERO" heroPlan). split; [now left | reflexivity]. }
  split; [exact H|]. split; [exact S|].
  exact (proj1 (lock_selected_spec sampleMapObject sampleGroupByKey
                  sampleMapObject_lookup sampleGroupByKey_keys
                  heroProfile "HERO" hero H) S).
Defined.

Lemma resetAllCharacterTargets_spec_witness :
  let newCharacters :=
    sampleMapObject (characters heroProfile) (fun c => c) in
  exists p',
    resetAllCharacterTargets sampleMapObject (fun c => c) heroProfile = Ok p'
    /\ characters p' = newCharacters
    /\ Forall2 (fun old new =>
                  sel_id new = sel_id old
                  /\ name (sel_target new) = name (sel_target old)
                  /\ (sel_target new = sel_target old
                      \/ exists c, newCharacters !! sel_id old = Some c
                           /\ In (sel_target new)
                                (targets (optimizerSettings c))))
         (selectedCharacters heroProfile) (selectedCharacters p').
Proof.
  cbv zeta.
  destruct (resetAllCharacterTargets sampleMapObject (fun c => c) heroProfile)
    as [p'|e] eqn:E.
  - exists p'. split; [reflexivity|].
    exact (proj2 (resetAllCharacterTargets_spec sampleMapObject (fun c => c)
                    heroProfile) p' E).
  - exfalso. vm_compute in E. discriminate E.
Defined.

Lemma deleteTarget_spec_witness :
  let newTarget := match sampleTargets hero with
                   | first :: _ => first
                   | [] => sampleNewPlan "unnamed"
                   end in
  characters heroProfile !! "HERO" = Some hero
  /\ exists p',
       deleteTarget (fun c _ => c) sampleTargets sampleNewPlan
         "HERO" "sample" heroProfile = Ok p'
       /\ characters p' = <["HERO" := hero]> (characters heroProfile)
       /\ sel_id <$> selectedCharacters p'
          = sel_id <$> selectedCharacters heroProfile
       /\ (forall i entry, selectedCharacters heroProfile !! i = Some entry ->
             selectedCharacters p' !! i
             = Some (if String.eqb (sel_id entry) "HERO"
                        && String.eqb (name (sel_target entry)) "sample"
                     then mkSelected "HERO" newTarget
                     else entry)).
Proof.
  cbv zeta.
  assert (H : characters heroProfile !! "HERO" = Some hero)
    by (vm_compute; reflexivity).
  split; [exact H|].
  exact (proj2 (deleteTarget_spec (fun c _ => c) sampleTargets sampleNewPlan
                  "HERO" "sample" heroProfile) hero H).
Defined.

Lemma resetCharacterTargetToDefault_spec_witness :
  characters heroProfile !! "HERO" = Some hero
  /\ exists p' resetTarget,
       resetCharacterTargetToDefault (fun c _ => c) sampleNewPlan
         "HERO" "sample" heroProfile = Ok p'
       /\ ((In resetTarget (targets (optimizerSettings hero))
            /\ name resetTarget = "sample")
           \/ ((forall target,
                  In target (targets (optimizerSettings hero)) ->
                  name target <> "sample")
               /\ resetTarget = sampleNewPlan "unnamed"))
       /\ characters p' = <["HERO" := hero]> (characters heroProfile)
       /\ sel_id <$> selectedCharacters p'
          = sel_id <$> selectedCharacters heroProfile
       /\ (forall i entry, selectedCharacters heroProfile !! i = Some entry ->
             selectedCharacters p' !! i
             = Some (if String.eqb (sel_id entry) "HERO"
                        && String.eqb (name (sel_target entry)) "sample"
                     then mkSelected "HERO" resetTarget
                     else entry)).
Proof.
  assert (H : characters heroProfile !! "HERO" = Some hero)
    by (vm_compute; reflexivity).
  split; [exact H|].
  exact (proj2 (resetCharacterTargetToDefault_spec (fun c _ => c)
                  sampleNewPlan "HERO" "sample" heroProfile) hero H).
Defined.

(** ** Loading the stored profiles *)

Lemma loadProfiles_active_witness :
  exists rest,
    loadProfiles_loaded (string * string) fst snd (Some "222") sampleStored
    = setProfile (Some ("222", "Bob")) :: rest
    /\ sampleStored !! 1%nat = Some ("222", "Bob")
    /\ forall j other, (j < 1)%nat -> sampleStored !! j = Some other ->
                       fst other <> "222".
Proof.
  destruct (loadProfiles_active (string * string) fst snd (Some "222")
              sampleStored) as (active & rest & E & H).
  exists rest. injection E as <- <-.
  destruct H as (i & Hi & Hc & Hbefore).
  split; [reflexivity|]. split; [reflexivity|].
  intros j other Hj Ho.
  assert (Hi1 : (1 <= i)%nat).
  { destruct i as [|i]; [|lia]. injection Hi as Hi. discriminate Hi. }
  apply (Hbefore j other); [lia | exact Ho].
Defined.

Example loadProfiles_last_name_wins :
  exists first table,
    loadProfiles_loaded (string * string) fst snd None sampleStored
    = [first; setPlayerProfiles table]
    /\ first = setProfile (Some ("111", "Ann"))
    /\ table !! "222" = Some "Cy"
    /\ table !! "111" = Some "Ann"
    /\ table !! "333" = None.
Proof.
  eexists. eexists. split; [reflexivity|].
  split; [reflexivity|]. now vm_compute.
Qed.
